(** * WorldLevel: a shallow embedding of [src/worldLevel.js]

    The class [WorldLevel] wraps one level object of [levels.json]: it resolves
    the theme, the physics knobs and the spawn point with defaults, collects
    the authored platforms, appends the procedurally generated ones and offers
    two helpers that size the canvas.

    Conventions of the embedding.
    - JavaScript numbers are modelled as rationals ([Q]); rounding, [NaN] and
      the infinities of IEEE doubles are outside the model.
    - Scalars that the code only tests and passes on ([name], [gravity],
      [jumpV], the theme colours, the spawn coordinates, [seed], [type]) are
      dynamically typed values of [JS.value].
    - Numbers the code computes with (rectangles, generator parameters) are
      typed: a property is [Some n] when it holds the number [n] and [None]
      when it is nullish ([undefined], [null] or missing), the only
      distinction [??] makes.
    - The shared pseudo-random source of p5.js is explicit state, threaded
      through the constructor and the generator. *)

From Stdlib Require Import ZArith QArith Qround List String Bool Lia.
Import ListNotations.

Local Open Scope Q_scope.

(** ** JavaScript values and operators *)

Module JS.

(** Primitive values. *)
Inductive value : Type :=
| VUndefined
| VNull
| VBool (b : bool)
| VNum (n : Q)
| VStr (s : string).

(** A property that holds either a primitive or an object of shape [O]
    (for an array, [O] is a list). *)
Inductive field (O : Type) : Type :=
| Prim (v : value)
| Obj (o : O).

Arguments Prim {O} v.
Arguments Obj {O} o.

(** ToBoolean. *)
Definition truthy (v : value) : bool :=
  match v with
  | VUndefined | VNull => false
  | VBool b => b
  | VNum n => negb (Qeq_bool n 0)
  | VStr s => negb (String.eqb s "")
  end.

Definition nullish (v : value) : bool :=
  match v with
  | VUndefined | VNull => true
  | _ => false
  end.

(** [a || b] *)
Definition or_else (a b : value) : value := if truthy a then a else b.

(** [a ?? b] *)
Definition coalesce (a b : value) : value := if nullish a then b else a.

(** [a ?? b] on a typed numeric property. *)
Definition coalesceNum (a : option Q) (b : Q) : Q :=
  match a with
  | Some n => n
  | None => b
  end.

(** [typeof v === "number"] *)
Definition typeof_number (v : value) : bool :=
  match v with
  | VNum _ => true
  | _ => false
  end.

(** [v === s] for a string literal [s]. *)
Definition strict_eq_string (v : value) (s : string) : bool :=
  match v with
  | VStr t => String.eqb t s
  | _ => false
  end.

(** Every object is truthy. *)
Definition truthy_field {O : Type} (f : field O) : bool :=
  match f with
  | Prim v => truthy v
  | Obj _ => true
  end.

(** [Array.isArray(f)] for a property whose objects are arrays. *)
Definition Array_isArray {O : Type} (f : field (list O)) : bool :=
  match f with
  | Prim _ => false
  | Obj _ => true
  end.

(** [a < b] on numbers. *)
Definition lt (a b : Q) : bool := negb (Qle_bool b a).

(** [Math.max(a, b)] and [Math.min(a, b)]. *)
Definition Math_max (a b : Q) : Q := if Qle_bool a b then b else a.
Definition Math_min (a b : Q) : Q := if Qle_bool a b then a else b.

(** [Math.floor(n)] *)
Definition Math_floor (n : Q) : Q := inject_Z (Qfloor n).

(** [arr.push(v)]: the array with [v] appended. *)
Definition push {A : Type} (arr : list A) (v : A) : list A := arr ++ [v].

(** [a.concat(b)] *)
Definition concat {A : Type} (a b : list A) : list A := a ++ b.

(** Not a nullish value: what a populated field holds. *)
Definition populated (v : value) : Prop := v <> VUndefined /\ v <> VNull.

End JS.

Import JS.

Declare Scope js_scope.
Delimit Scope js_scope with js.
Notation "a ?? b" := (coalesceNum a b) (at level 45, left associativity) : js_scope.
Local Open Scope js_scope.

(** ** The p5.js collaborators *)

Module P5.

(** The shared pseudo-random source: its hidden state, [randomSeed(seed)]
    and [random(min, max)]. *)
Class RandomSource : Type := {
  rstate : Type;
  randomSeed : Q -> rstate -> rstate;
  random : Q -> Q -> rstate -> Q * rstate
}.

(** Computations that read and write the random source. *)
Definition M `{RandomSource} (A : Type) : Type := rstate -> A * rstate.

Definition ret `{RandomSource} {A : Type} (a : A) : M A := fun s => (a, s).

Definition bind `{RandomSource} {A B : Type} (m : M A) (k : A -> M B) : M B :=
  fun s => let (a, s') := m s in k a s'.

(** [randomSeed(seed)] as a computation. *)
Definition reseed `{RandomSource} (seed : Q) : M unit :=
  fun s => (tt, randomSeed seed s).

(** [random(lo, hi)] as a computation. *)
Definition draw `{RandomSource} (lo hi : Q) : M Q := random lo hi.

(** [floor(n)] is [Math.floor]. *)
Definition floor (n : Q) : Q := Math_floor n.

(** [constrain(n, low, high)] is [Math.max(Math.min(n, high), low)]. *)
Definition constrain (n low high : Q) : Q := Math_max (Math_min n high) low.

(** [max(arr)] is [Math.max] over the elements. Over no element JavaScript
    answers [-Infinity], which is no rational: [None]. *)
Definition max (arr : list Q) : option Q :=
  match arr with
  | [] => None
  | v :: rest => Some (fold_left Math_max rest v)
  end.

(** The linear congruential generator p5.js uses once it is seeded
    (modulus 2^32, multiplier 1664525, increment 1013904223): a concrete
    random source to run the model on. *)
Definition lcg_m : Z := 4294967296.
Definition lcg_a : Z := 1664525.
Definition lcg_c : Z := 1013904223.

Definition lcg_seed (seed : Q) (_ : Z) : Z := (Qfloor seed mod lcg_m)%Z.

Definition lcg_random (lo hi : Q) (s : Z) : Q * Z :=
  let s' := ((lcg_a * s + lcg_c) mod lcg_m)%Z in
  let rand := inject_Z s' / inject_Z lcg_m in
  let lo' := if JS.lt hi lo then hi else lo in
  let hi' := if JS.lt hi lo then lo else hi in
  (rand * (hi' - lo') + lo', s').

Definition LCG : RandomSource :=
  {| rstate := Z; randomSeed := lcg_seed; random := lcg_random |}.

(** A random source that also counts the draws made from it. *)
Definition Counting (R : RandomSource) : RandomSource :=
  {| rstate := (@rstate R * nat)%type;
     randomSeed := fun seed s => (@randomSeed R seed (fst s), snd s);
     random := fun lo hi s =>
       let (v, s') := @random R lo hi (fst s) in (v, (s', S (snd s))) |}.

End P5.

Import P5.

Notation "x <- m ;; k" := (bind m (fun x => k))
  (at level 61, m at next level, right associativity) : js_scope.

(** ** The data model *)

(** A raw platform object [{x, y, w, h}]. *)
Module Rect.
Record t : Type := mk { x : Q; y : Q; w : Q; h : Q }.
End Rect.

(** Modelled from the spec: the class [Platform] is declared in another file
    of the sketch; the spec describes it as the platform entity "constructed
    from a Rect". [new Platform(p)] keeps the four coordinates of [p]. *)
Module Platform.
Record t : Type := mk { x : Q; y : Q; w : Q; h : Q }.
Definition new (p : Rect.t) : t :=
  {| x := Rect.x p; y := Rect.y p; w := Rect.w p; h := Rect.h p |}.
End Platform.

(** The [theme] object of the level JSON: each key is missing ([None]) or
    holds a value ([Some v], where [v] may be [null]). *)
Module ThemeJson.
Record t : Type := mk {
  bg : option value;
  platform : option value;
  blob : option value
}.
(** The object literal with no key. *)
Definition empty : t := {| bg := None; platform := None; blob := None |}.
End ThemeJson.

Module Theme.
Record t : Type := mk { bg : value; platform : value; blob : value }.
End Theme.

(** The [start] object: a missing key reads as [undefined]. *)
Module Start.
Record t : Type := mk { x : value; y : value; r : value }.
End Start.

(** The [generated] config object. *)
Module Gen.
Record t : Type := mk {
  type : value;
  seed : value;
  worldW : option Q;
  floorY : option Q;
  floorH : option Q;
  startX : option Q;
  startY : option Q;
  stepW : option Q;
  stepH : option Q;
  rise : option Q;
  count : option Q;
  platH : option Q;
  platWMin : option Q;
  platWMax : option Q;
  gapMin : option Q;
  gapMax : option Q;
  riseMin : option Q;
  riseMax : option Q
}.

(** An object on which every key of the config is missing. *)
Definition empty : t :=
  {| type := VUndefined; seed := VUndefined;
     worldW := None; floorY := None; floorH := None;
     startX := None; startY := None; stepW := None; stepH := None;
     rise := None; count := None; platH := None;
     platWMin := None; platWMax := None; gapMin := None; gapMax := None;
     riseMin := None; riseMax := None |}.

(** The object whose properties the generator reads: a truthy primitive has
    none of the keys. *)
Definition of_field (f : field t) : t :=
  match f with
  | Obj g => g
  | Prim _ => empty
  end.
End Gen.

(** One level object of [levels.json]. *)
Module LevelJson.
Record t : Type := mk {
  name : value;
  gravity : value;
  jumpV : value;
  theme : field ThemeJson.t;
  start : field Start.t;
  platforms : field (list Rect.t);
  generated : field Gen.t
}.
End LevelJson.

(** The fields of a constructed [WorldLevel]. *)
Module Level.
Record t : Type := mk {
  name : value;
  theme : Theme.t;
  gravity : value;
  jumpV : value;
  start : Start.t;
  platforms : list Platform.t
}.
End Level.

(** ** The class [WorldLevel] *)

Module WorldLevel.

(** [Object.assign(target, src)] on the three theme keys: a key of [src]
    overwrites the one of [target] with whatever it holds. *)
Definition assign_key (target : value) (src : option value) : value :=
  match src with
  | Some v => v
  | None => target
  end.

Definition Object_assign (target : Theme.t) (src : field ThemeJson.t) : Theme.t :=
  match src with
  | Obj o =>
      {| Theme.bg := assign_key (Theme.bg target) (ThemeJson.bg o);
         Theme.platform := assign_key (Theme.platform target) (ThemeJson.platform o);
         Theme.blob := assign_key (Theme.blob target) (ThemeJson.blob o) |}
  | Prim _ => target
  end.

(** [levelJson.theme || {}] *)
Definition theme_or_empty (theme : field ThemeJson.t) : field ThemeJson.t :=
  if truthy_field theme then theme else Obj ThemeJson.empty.

(** [start?.k] for a key [k] of the spawn object. *)
Definition opt_chain (start : field Start.t) (k : Start.t -> value) : value :=
  match start with
  | Obj o => k o
  | Prim _ => VUndefined
  end.

Section Generator.

Context `{R : RandomSource}.

(** The loop of the stairs branch, lines 93-100. [fuel] bounds the number of
    iterations; [loop_bound] is enough of it. *)
Fixpoint stairs_loop (fuel : nat) (startX startY stepW stepH rise count : Q)
  (i : Q) (out : list Rect.t) : list Rect.t :=
  match fuel with
  | O => out
  | S fuel' =>
      if JS.lt i count then
        stairs_loop fuel' startX startY stepW stepH rise count (i + 1)
          (push out {| Rect.x := startX + i * stepW;
                       Rect.y := startY - i * rise;
                       Rect.w := stepW;
                       Rect.h := stepH |})
      else out
  end.

(** The loop of the random-hops branch, lines 135-145. *)
Fixpoint hops_loop (fuel : nat)
  (platH platWMin platWMax gapMin gapMax riseMin riseMax minY maxY count : Q)
  (i x y : Q) (out : list Rect.t) : M (list Rect.t) :=
  match fuel with
  | O => ret out
  | S fuel' =>
      if JS.lt i count then
        r <- draw platWMin (platWMax + 1) ;;
        let w := floor r in
        let out := push out {| Rect.x := x; Rect.y := y; Rect.w := w; Rect.h := platH |} in
        g <- draw gapMin (gapMax + 1) ;;
        let gap := floor g in
        d <- draw riseMin (riseMax + 1) ;;
        let dy := floor d in
        hops_loop fuel' platH platWMin platWMax gapMin gapMax riseMin riseMax
          minY maxY count (i + 1) (x + w + gap) (constrain (y - dy) minY maxY) out
      else ret out
  end.

(** The number of times a loop [for (let i = 0; i < count; i++)] runs. *)
Definition loop_bound (count : Q) : nat := Z.to_nat (Qceiling count).

(** [generatePlatforms(gen)], lines 69-152. *)
Definition generatePlatforms (gen : Gen.t) : M (list Rect.t) :=
  let out := [] in
  _ <- (if typeof_number (Gen.seed gen)
        then match Gen.seed gen with
             | VNum seed => reseed seed
             | _ => ret tt
             end
        else ret tt) ;;
  if strict_eq_string (Gen.type gen) "stairs" then
    let worldW := Gen.worldW gen ?? 640 in
    let floorY := Gen.floorY gen ?? 324 in
    let floorH := Gen.floorH gen ?? 36 in
    let out := push out {| Rect.x := 0; Rect.y := floorY; Rect.w := worldW; Rect.h := floorH |} in
    let startX := Gen.startX gen ?? 120 in
    let startY := Gen.startY gen ?? 290 in
    let stepW := Gen.stepW gen ?? 80 in
    let stepH := Gen.stepH gen ?? 12 in
    let rise := Gen.rise gen ?? 22 in
    let count := Gen.count gen ?? 8 in
    ret (stairs_loop (loop_bound count) startX startY stepW stepH rise count 0 out)
  else if strict_eq_string (Gen.type gen) "randomHops" then
    let worldW := Gen.worldW gen ?? 900 in
    let floorY := Gen.floorY gen ?? 324 in
    let floorH := Gen.floorH gen ?? 36 in
    let out := push out {| Rect.x := 0; Rect.y := floorY; Rect.w := worldW; Rect.h := floorH |} in
    let count := Gen.count gen ?? 10 in
    let platH := Gen.platH gen ?? 12 in
    let platWMin := Gen.platWMin gen ?? 70 in
    let platWMax := Gen.platWMax gen ?? 120 in
    let gapMin := Gen.gapMin gen ?? 55 in
    let gapMax := Gen.gapMax gen ?? 95 in
    let riseMin := Gen.riseMin gen ?? -15 in
    let riseMax := Gen.riseMax gen ?? 25 in
    let x := Gen.startX gen ?? 140 in
    let y := Gen.startY gen ?? 280 in
    let minY := 110 in
    let maxY := floorY - 60 in
    hops_loop (loop_bound count) platH platWMin platWMax gapMin gapMax
      riseMin riseMax minY maxY count 0 x y out
  else ret out.

(** [new WorldLevel(levelJson)], lines 30-66. *)
Definition constructor (levelJson : LevelJson.t) : M Level.t :=
  let name := or_else (LevelJson.name levelJson) (VStr "Level") in
  let theme :=
    Object_assign
      {| Theme.bg := VStr "#F0F0F0";
         Theme.platform := VStr "#C8C8C8";
         Theme.blob := VStr "#1478FF" |}
      (theme_or_empty (LevelJson.theme levelJson)) in
  let gravity := coalesce (LevelJson.gravity levelJson) (VNum 0.65) in
  let jumpV := coalesce (LevelJson.jumpV levelJson) (VNum (-11.0)) in
  let start :=
    {| Start.x := coalesce (opt_chain (LevelJson.start levelJson) Start.x) (VNum 80);
       Start.y := coalesce (opt_chain (LevelJson.start levelJson) Start.y) (VNum 180);
       Start.r := coalesce (opt_chain (LevelJson.start levelJson) Start.r) (VNum 26) |} in
  let rawPlatforms :=
    if Array_isArray (LevelJson.platforms levelJson)
    then match LevelJson.platforms levelJson with
         | Obj arr => arr
         | Prim _ => []
         end
    else [] in
  rawPlatforms <-
    (if truthy_field (LevelJson.generated levelJson)
     then g <- generatePlatforms (Gen.of_field (LevelJson.generated levelJson)) ;;
          ret (JS.concat rawPlatforms g)
     else ret rawPlatforms) ;;
  ret {| Level.name := name;
         Level.theme := theme;
         Level.gravity := gravity;
         Level.jumpV := jumpV;
         Level.start := start;
         Level.platforms := map Platform.new rawPlatforms |}.

End Generator.

(** [inferWidth(defaultW = 640)] and [inferHeight(defaultH = 360)], lines
    158-166. The argument is [None] when the caller passes none. The last
    branch of the [match] is never reached: [max] answers [None] only on the
    empty array, which the guard has returned on. *)
Definition inferWidth (this : Level.t) (defaultW : option Q) : Q :=
  let defaultW := defaultW ?? 640 in
  if (List.length (Level.platforms this) =? 0)%nat then defaultW
  else match max (map (fun p => Platform.x p + Platform.w p) (Level.platforms this)) with
       | Some m => m
       | None => defaultW
       end.

Definition inferHeight (this : Level.t) (defaultH : option Q) : Q :=
  let defaultH := defaultH ?? 360 in
  if (List.length (Level.platforms this) =? 0)%nat then defaultH
  else match max (map (fun p => Platform.y p + Platform.h p) (Level.platforms this)) with
       | Some m => m
       | None => defaultH
       end.

End WorldLevel.

Import WorldLevel.

(** * Properties *)

(** ** Numbers and loop counters *)

Lemma lt_true_iff (a b : Q) : JS.lt a b = true <-> a < b.
Proof.
  unfold JS.lt. rewrite negb_true_iff, <- not_true_iff_false, Qle_bool_iff.
  split; [apply Qnot_le_lt | apply Qlt_not_le].
Qed.

Lemma lt_false_iff (a b : Q) : JS.lt a b = false <-> b <= a.
Proof.
  unfold JS.lt. rewrite negb_false_iff. apply Qle_bool_iff.
Qed.

(** [i++] on a counter that holds the integer [k]. *)
Lemma counter_succ (k : nat) :
  inject_Z (Z.of_nat k) + 1 = inject_Z (Z.of_nat (S k)).
Proof.
  unfold inject_Z, Qplus. cbn [Qnum Qden]. f_equal. lia.
Qed.

(** The test [i < count] on an integer counter, read on [loop_bound]. *)
Lemma counter_lt_bound (k : nat) (count : Q) :
  JS.lt (inject_Z (Z.of_nat k)) count = true <-> (k < loop_bound count)%nat.
Proof.
  rewrite lt_true_iff. unfold loop_bound. split; intro H.
  - assert (Hz : (Z.of_nat k < Qceiling count)%Z).
    { rewrite Zlt_Qlt. eapply Qlt_le_trans; [exact H | apply Qle_ceiling]. }
    lia.
  - assert (Hz : (Z.of_nat k <= Qceiling count - 1)%Z) by lia.
    rewrite Zle_Qle in Hz.
    eapply Qle_lt_trans; [exact Hz | apply Qceiling_lt].
Qed.

Lemma counter_ge_bound (k : nat) (count : Q) :
  JS.lt (inject_Z (Z.of_nat k)) count = false <-> (loop_bound count <= k)%nat.
Proof.
  rewrite <- not_true_iff_false, counter_lt_bound. lia.
Qed.

Lemma loop_bound_nat (count : Q) (n : nat) :
  count == inject_Z (Z.of_nat n) -> loop_bound count = n.
Proof.
  intro H. unfold loop_bound. rewrite (Qceiling_comp _ _ H), Qceiling_Z. lia.
Qed.

(** ** The stairs generator *)

(** Step [i] of a staircase. *)
Definition stairs_step (startX startY stepW stepH rise : Q) (i : nat) : Rect.t :=
  {| Rect.x := startX + inject_Z (Z.of_nat i) * stepW;
     Rect.y := startY - inject_Z (Z.of_nat i) * rise;
     Rect.w := stepW;
     Rect.h := stepH |}.

(** The staircase as the specification describes it: the floor, then [n]
    steps. *)
Definition stairs_spec (worldW floorY floorH startX startY stepW stepH rise : Q)
  (n : nat) : list Rect.t :=
  {| Rect.x := 0; Rect.y := floorY; Rect.w := worldW; Rect.h := floorH |}
    :: map (stairs_step startX startY stepW stepH rise) (seq 0 n).

(** The resolved parameters of a stairs config. *)
Definition stairs_of (gen : Gen.t) (n : nat) : list Rect.t :=
  stairs_spec (Gen.worldW gen ?? 640) (Gen.floorY gen ?? 324) (Gen.floorH gen ?? 36)
    (Gen.startX gen ?? 120) (Gen.startY gen ?? 290) (Gen.stepW gen ?? 80)
    (Gen.stepH gen ?? 12) (Gen.rise gen ?? 22) n.

(** What [randomSeed] leaves of the state once the seed test has run. *)
Definition after_seed `{R : RandomSource} (gen : Gen.t) (s : rstate) : rstate :=
  match Gen.seed gen with
  | VNum seed => randomSeed seed s
  | _ => s
  end.

Section StairsLoop.

Variables startX startY stepW stepH rise count : Q.

(** From the counter [k] the loop appends the steps [k], [k+1], ... until the
    test fails or the fuel is spent. *)
Lemma stairs_loop_steps (fuel k : nat) (out : list Rect.t) :
  stairs_loop fuel startX startY stepW stepH rise count (inject_Z (Z.of_nat k)) out =
  out ++ map (stairs_step startX startY stepW stepH rise)
           (seq k (Nat.min fuel (loop_bound count - k))).
Proof.
  revert k out. induction fuel as [|fuel IH]; intros k out; cbn [stairs_loop].
  - now rewrite app_nil_r.
  - destruct (JS.lt (inject_Z (Z.of_nat k)) count) eqn:Hlt.
    + apply counter_lt_bound in Hlt.
      rewrite counter_succ, IH. unfold push. rewrite <- app_assoc.
      replace (loop_bound count - k)%nat with (S (loop_bound count - S k)) by lia.
      reflexivity.
    + apply counter_ge_bound in Hlt.
      replace (loop_bound count - k)%nat with 0%nat by lia.
      rewrite Nat.min_0_r. now rewrite app_nil_r.
Qed.

(** The loop leaves by its own test: more fuel than [loop_bound] changes
    nothing. *)
Lemma stairs_loop_fuel (extra : nat) (out : list Rect.t) :
  stairs_loop (loop_bound count + extra) startX startY stepW stepH rise count 0 out =
  stairs_loop (loop_bound count) startX startY stepW stepH rise count 0 out.
Proof.
  change 0 with (inject_Z (Z.of_nat 0)). rewrite !stairs_loop_steps.
  replace (Nat.min (loop_bound count + extra) (loop_bound count - 0))
    with (Nat.min (loop_bound count) (loop_bound count - 0)) by lia.
  reflexivity.
Qed.

End StairsLoop.

(** The seed test and the stairs branch, for every count. *)
Lemma generatePlatforms_stairs `{R : RandomSource} (gen : Gen.t) (s : rstate) :
  Gen.type gen = VStr "stairs" ->
  generatePlatforms gen s =
    (stairs_of gen (loop_bound (Gen.count gen ?? 8)), after_seed gen s).
Proof.
  intro Ht. unfold generatePlatforms, after_seed, bind. rewrite Ht.
  cbn [strict_eq_string]. rewrite String.eqb_refl.
  change 0 with (inject_Z (Z.of_nat 0)). cbv zeta.
  rewrite stairs_loop_steps, Nat.sub_0_r, Nat.min_id.
  destruct (Gen.seed gen); reflexivity.
Qed.

(** C1. For every stairs config, the generator emits the floor rectangle
    [{x:0, y:floorY, w:worldW, h:floorH}] first and then exactly [count]
    steps, step [i] being [{x: startX + i*stepW, y: startY - i*rise,
    w: stepW, h: stepH}] for [i] from [0] to [count-1], with the defaults
    640, 324, 36, 120, 290, 80, 12, 22, 8. *)
Theorem stairs_floor_then_count_steps `{R : RandomSource}
  (gen : Gen.t) (s : rstate) (n : nat) :
  Gen.type gen = VStr "stairs" ->
  Gen.count gen ?? 8 == inject_Z (Z.of_nat n) ->
  fst (generatePlatforms gen s) =
    {| Rect.x := 0;
       Rect.y := Gen.floorY gen ?? 324;
       Rect.w := Gen.worldW gen ?? 640;
       Rect.h := Gen.floorH gen ?? 36 |}
    :: map (fun i : nat =>
              {| Rect.x := (Gen.startX gen ?? 120) + inject_Z (Z.of_nat i) * (Gen.stepW gen ?? 80);
                 Rect.y := (Gen.startY gen ?? 290) - inject_Z (Z.of_nat i) * (Gen.rise gen ?? 22);
                 Rect.w := Gen.stepW gen ?? 80;
                 Rect.h := Gen.stepH gen ?? 12 |})
           (seq 0 n)
  /\ List.length (fst (generatePlatforms gen s)) = S n.
Proof.
  intros Ht Hn. rewrite (generatePlatforms_stairs gen s Ht), (loop_bound_nat _ _ Hn).
  cbn [fst]. split; [reflexivity|].
  unfold stairs_of, stairs_spec. cbn [List.length]. now rewrite length_map, length_seq.
Qed.

(** The staircase of the specification's example:
    [{type:"stairs", count:3, startX:0, startY:100, stepW:10, stepH:5, rise:2}]. *)
Definition stairs_example : Gen.t :=
  {| Gen.type := VStr "stairs"; Gen.seed := VUndefined;
     Gen.worldW := None; Gen.floorY := None; Gen.floorH := None;
     Gen.startX := Some 0; Gen.startY := Some 100;
     Gen.stepW := Some 10; Gen.stepH := Some 5;
     Gen.rise := Some 2; Gen.count := Some 3; Gen.platH := None;
     Gen.platWMin := None; Gen.platWMax := None; Gen.gapMin := None; Gen.gapMax := None;
     Gen.riseMin := None; Gen.riseMax := None |}.

Lemma stairs_floor_then_count_steps_witness :
  Gen.type stairs_example = VStr "stairs" /\
  Gen.count stairs_example ?? 8 == inject_Z (Z.of_nat 3) /\
  fst (@generatePlatforms LCG stairs_example 7%Z) =
    [ {| Rect.x := 0; Rect.y := 324; Rect.w := 640; Rect.h := 36 |};
      {| Rect.x := 0; Rect.y := 100; Rect.w := 10; Rect.h := 5 |};
      {| Rect.x := 10; Rect.y := 98; Rect.w := 10; Rect.h := 5 |};
      {| Rect.x := 20; Rect.y := 96; Rect.w := 10; Rect.h := 5 |} ].
Proof.
  split; [reflexivity|]. split; [reflexivity|].
  apply (stairs_floor_then_count_steps (R := LCG) stairs_example 7%Z 3);
    reflexivity.
Defined.

(** With [count = 0] only the floor is emitted. *)
Lemma stairs_count_zero `{R : RandomSource} (gen : Gen.t) (s : rstate) :
  Gen.type gen = VStr "stairs" ->
  Gen.count gen ?? 8 == 0 ->
  fst (generatePlatforms gen s) =
    [ {| Rect.x := 0; Rect.y := Gen.floorY gen ?? 324;
         Rect.w := Gen.worldW gen ?? 640; Rect.h := Gen.floorH gen ?? 36 |} ].
Proof.
  intros Ht Hc. rewrite (generatePlatforms_stairs gen s Ht).
  now rewrite (loop_bound_nat _ 0 Hc).
Qed.

(** ** The random-hops generator *)

Section HopsLoop.

Context `{R : RandomSource}.
Variables platH platWMin platWMax gapMin gapMax riseMin riseMax minY maxY count : Q.

(** [n] hops from the cursor [(x, y)], as the specification's algorithm
    lists them: draw the width, emit, draw the gap and the rise, advance. *)
Fixpoint hops_from (n : nat) (x y : Q) : M (list Rect.t) :=
  match n with
  | O => ret []
  | S n' =>
      r <- draw platWMin (platWMax + 1) ;;
      g <- draw gapMin (gapMax + 1) ;;
      d <- draw riseMin (riseMax + 1) ;;
      rest <- hops_from n' (x + floor r + floor g)
                (constrain (y - floor d) minY maxY) ;;
      ret ({| Rect.x := x; Rect.y := y; Rect.w := floor r; Rect.h := platH |} :: rest)
  end.

Lemma hops_loop_hops (fuel k : nat) (x y : Q) (out : list Rect.t) (s : rstate) :
  hops_loop fuel platH platWMin platWMax gapMin gapMax riseMin riseMax minY maxY
    count (inject_Z (Z.of_nat k)) x y out s =
  (out ++ fst (hops_from (Nat.min fuel (loop_bound count - k)) x y s),
   snd (hops_from (Nat.min fuel (loop_bound count - k)) x y s)).
Proof.
  revert k x y out s. induction fuel as [|fuel IH]; intros k x y out s;
    cbn [hops_loop].
  - cbn. now rewrite app_nil_r.
  - destruct (JS.lt (inject_Z (Z.of_nat k)) count) eqn:Hlt.
    + apply counter_lt_bound in Hlt.
      replace (loop_bound count - k)%nat with (S (loop_bound count - S k)) by lia.
      rewrite <- Nat.succ_min_distr. cbn [hops_from]. unfold bind, draw.
      destruct (random platWMin (platWMax + 1) s) as [r s1].
      destruct (random gapMin (gapMax + 1) s1) as [g s2].
      destruct (random riseMin (riseMax + 1) s2) as [d s3].
      rewrite counter_succ, IH.
      destruct (hops_from _ _ _ s3) as [rest s4]. cbn [fst snd ret].
      unfold push. now rewrite <- app_assoc.
    + apply counter_ge_bound in Hlt.
      replace (loop_bound count - k)%nat with 0%nat by lia.
      rewrite Nat.min_0_r. cbn. now rewrite app_nil_r.
Qed.

(** The loop leaves by its own test: more fuel than [loop_bound] changes
    nothing. *)
Lemma hops_loop_fuel (extra : nat) (x y : Q) (out : list Rect.t) (s : rstate) :
  hops_loop (loop_bound count + extra) platH platWMin platWMax gapMin gapMax
    riseMin riseMax minY maxY count 0 x y out s =
  hops_loop (loop_bound count) platH platWMin platWMax gapMin gapMax
    riseMin riseMax minY maxY count 0 x y out s.
Proof.
  change 0 with (inject_Z (Z.of_nat 0)). rewrite !hops_loop_hops.
  replace (Nat.min (loop_bound count + extra) (loop_bound count - 0))
    with (Nat.min (loop_bound count) (loop_bound count - 0)) by lia.
  reflexivity.
Qed.

Lemma hops_from_length (n : nat) (x y : Q) (s : rstate) :
  List.length (fst (hops_from n x y s)) = n.
Proof.
  revert x y s. induction n as [|n IH]; intros x y s; [reflexivity|].
  cbn [hops_from]. unfold bind, draw.
  destruct (random platWMin (platWMax + 1) s) as [r s1].
  destruct (random gapMin (gapMax + 1) s1) as [g s2].
  destruct (random riseMin (riseMax + 1) s2) as [d s3].
  specialize (IH (x + floor r + floor g) (constrain (y - floor d) minY maxY) s3).
  destruct (hops_from _ _ _ s3) as [rest s4]. cbn in *. now rewrite IH.
Qed.

(** The first hop is emitted at the cursor the loop starts from. *)
Lemma hops_from_first (n : nat) (x y : Q) (s : rstate) :
  exists rest,
    fst (hops_from (S n) x y s) =
    {| Rect.x := x; Rect.y := y;
       Rect.w := floor (fst (random platWMin (platWMax + 1) s));
       Rect.h := platH |} :: rest.
Proof.
  cbn [hops_from]. unfold bind, draw.
  destruct (random platWMin (platWMax + 1) s) as [r s1].
  destruct (random gapMin (gapMax + 1) s1) as [g s2].
  destruct (random riseMin (riseMax + 1) s2) as [d s3].
  destruct (hops_from _ _ _ s3) as [rest s4]. now exists rest.
Qed.

End HopsLoop.

(** The hops of a random-hops config, with its parameters resolved. *)
Definition hops_of `{R : RandomSource} (gen : Gen.t) : M (list Rect.t) :=
  hops_from (Gen.platH gen ?? 12) (Gen.platWMin gen ?? 70) (Gen.platWMax gen ?? 120)
    (Gen.gapMin gen ?? 55) (Gen.gapMax gen ?? 95)
    (Gen.riseMin gen ?? -15) (Gen.riseMax gen ?? 25)
    110 ((Gen.floorY gen ?? 324) - 60)
    (loop_bound (Gen.count gen ?? 10))
    (Gen.startX gen ?? 140) (Gen.startY gen ?? 280).

(** The floor of a random-hops config. *)
Definition hops_floor (gen : Gen.t) : Rect.t :=
  {| Rect.x := 0; Rect.y := Gen.floorY gen ?? 324;
     Rect.w := Gen.worldW gen ?? 900; Rect.h := Gen.floorH gen ?? 36 |}.

(** The seed test and the random-hops branch. *)
Lemma generatePlatforms_hops `{R : RandomSource} (gen : Gen.t) (s : rstate) :
  Gen.type gen = VStr "randomHops" ->
  generatePlatforms gen s =
    (hops_floor gen :: fst (hops_of gen (after_seed gen s)),
     snd (hops_of gen (after_seed gen s))).
Proof.
  intro Ht. unfold generatePlatforms, after_seed, bind. rewrite Ht.
  cbn [strict_eq_string].
  change (String.eqb "randomHops" "stairs") with false.
  change (String.eqb "randomHops" "randomHops") with true.
  change 0 with (inject_Z (Z.of_nat 0)). cbv zeta.
  assert (E : forall s', hops_loop (loop_bound (Gen.count gen ?? 10))
      (Gen.platH gen ?? 12) (Gen.platWMin gen ?? 70) (Gen.platWMax gen ?? 120)
      (Gen.gapMin gen ?? 55) (Gen.gapMax gen ?? 95)
      (Gen.riseMin gen ?? -15) (Gen.riseMax gen ?? 25)
      110 ((Gen.floorY gen ?? 324) - 60) (Gen.count gen ?? 10)
      (inject_Z (Z.of_nat 0)) (Gen.startX gen ?? 140) (Gen.startY gen ?? 280)
      (push [] (hops_floor gen)) s' =
    (hops_floor gen :: fst (hops_of gen s'), snd (hops_of gen s'))).
  { intro s'. rewrite hops_loop_hops, Nat.sub_0_r, Nat.min_id. reflexivity. }
  destruct (Gen.seed gen); cbn [typeof_number ret reseed]; apply E.
Qed.

(** The playable band of the comment at lines 131-133. *)
Definition in_band (floorY : Q) (p : Rect.t) : Prop :=
  110 <= Rect.y p /\ Rect.y p <= floorY - 60.

Lemma constrain_in_range (n low high : Q) :
  low <= high -> low <= constrain n low high /\ constrain n low high <= high.
Proof.
  intro Hlh. unfold constrain, Math_max, Math_min.
  destruct (Qle_bool n high) eqn:E1.
  - apply Qle_bool_iff in E1.
    destruct (Qle_bool n low) eqn:E2.
    + split; [apply Qle_refl | exact Hlh].
    + split; [|exact E1].
      apply Qlt_le_weak, Qnot_le_lt. intro H.
      apply Qle_bool_iff in H. congruence.
  - destruct (Qle_bool high low) eqn:E2.
    + split; [apply Qle_refl | exact Hlh].
    + split; [exact Hlh | apply Qle_refl].
Qed.

Section HopsBand.

Context `{R : RandomSource}.
Variables platH platWMin platWMax gapMin gapMax riseMin riseMax minY maxY : Q.
Hypothesis band : minY <= maxY.

Let hops := hops_from platH platWMin platWMax gapMin gapMax riseMin riseMax minY maxY.

(** Every hop after the first lies between [minY] and [maxY]. *)
Lemma hops_from_tail_constrained (n : nat) (x y : Q) (s : rstate) :
  Forall (fun p => minY <= Rect.y p /\ Rect.y p <= maxY) (tl (fst (hops n x y s))).
Proof.
  revert x y s. induction n as [|n IH]; intros x y s; [constructor|].
  subst hops. cbn [hops_from]. unfold bind, draw.
  destruct (random platWMin (platWMax + 1) s) as [r s1].
  destruct (random gapMin (gapMax + 1) s1) as [g s2].
  destruct (random riseMin (riseMax + 1) s2) as [d s3].
  specialize (IH (x + floor r + floor g) (constrain (y - floor d) minY maxY) s3).
  destruct n as [|n].
  - cbn. constructor.
  - destruct (hops_from_first platH platWMin platWMax gapMin gapMax riseMin riseMax
               minY maxY n (x + floor r + floor g)
               (constrain (y - floor d) minY maxY) s3) as [rest Hrest].
    destruct (hops_from _ _ _ _ _ _ _ _ _ (S n) _ _ s3) as [l s4].
    cbn [fst snd ret tl] in *. subst l. cbn [tl] in IH.
    constructor; [|exact IH].
    cbn [Rect.y]. now apply constrain_in_range.
Qed.

End HopsBand.

(** The platforms the loop emits from its second iteration on stay in the
    band, as soon as the band is not empty. *)
Lemma hops_later_platforms_in_band `{R : RandomSource} (gen : Gen.t) (s : rstate)
  (i : nat) (p : Rect.t) :
  Gen.type gen = VStr "randomHops" ->
  110 <= (Gen.floorY gen ?? 324) - 60 ->
  (2 <= i)%nat ->
  nth_error (fst (generatePlatforms gen s)) i = Some p ->
  in_band (Gen.floorY gen ?? 324) p.
Proof.
  intros Ht Hband Hi Hp. rewrite (generatePlatforms_hops gen s Ht) in Hp.
  cbn [fst] in Hp.
  destruct i as [|[|i]]; try lia. cbn [nth_error] in Hp.
  pose proof (hops_from_tail_constrained (Gen.platH gen ?? 12)
    (Gen.platWMin gen ?? 70) (Gen.platWMax gen ?? 120) (Gen.gapMin gen ?? 55)
    (Gen.gapMax gen ?? 95) (Gen.riseMin gen ?? -15) (Gen.riseMax gen ?? 25)
    110 ((Gen.floorY gen ?? 324) - 60) Hband
    (loop_bound (Gen.count gen ?? 10)) (Gen.startX gen ?? 140)
    (Gen.startY gen ?? 280) (after_seed gen s)) as Hall.
  fold (hops_of gen (after_seed gen s)) in Hall.
  destruct (fst (hops_of gen (after_seed gen s))) as [|p0 l]; [discriminate|].
  cbn [nth_error tl] in *. rewrite Forall_forall in Hall.
  apply Hall. eapply nth_error_In; eassumption.
Qed.

(** The first hop of a run with at least one iteration is emitted at
    [(startX, startY)], as read from the config. *)
Lemma hops_first_platform `{R : RandomSource} (gen : Gen.t) (s : rstate) :
  Gen.type gen = VStr "randomHops" ->
  0 < Gen.count gen ?? 10 ->
  exists p, nth_error (fst (generatePlatforms gen s)) 1 = Some p /\
            Rect.x p = Gen.startX gen ?? 140 /\
            Rect.y p = Gen.startY gen ?? 280.
Proof.
  intros Ht Hc. rewrite (generatePlatforms_hops gen s Ht). cbn [fst nth_error].
  unfold hops_of.
  assert (Hn : (0 < loop_bound (Gen.count gen ?? 10))%nat).
  { apply (counter_lt_bound 0). now apply lt_true_iff. }
  destruct (loop_bound (Gen.count gen ?? 10)) as [|n]; [lia|].
  destruct (hops_from_first (Gen.platH gen ?? 12)
    (Gen.platWMin gen ?? 70) (Gen.platWMax gen ?? 120) (Gen.gapMin gen ?? 55)
    (Gen.gapMax gen ?? 95) (Gen.riseMin gen ?? -15) (Gen.riseMax gen ?? 25)
    110 ((Gen.floorY gen ?? 324) - 60) n (Gen.startX gen ?? 140)
    (Gen.startY gen ?? 280) (after_seed gen s)) as [rest Hrest].
  rewrite Hrest. eexists. split; [reflexivity|]. split; reflexivity.
Qed.

(** The config [{type:"randomHops"}]: every parameter takes its default. *)
Definition hops_default : Gen.t :=
  {| Gen.type := VStr "randomHops"; Gen.seed := VUndefined;
     Gen.worldW := None; Gen.floorY := None; Gen.floorH := None;
     Gen.startX := None; Gen.startY := None; Gen.stepW := None; Gen.stepH := None;
     Gen.rise := None; Gen.count := None; Gen.platH := None;
     Gen.platWMin := None; Gen.platWMax := None; Gen.gapMin := None; Gen.gapMax := None;
     Gen.riseMin := None; Gen.riseMax := None |}.

(** C2. The claim puts every hop platform in the band [[110, floorY-60]].
    On the config [{type:"randomHops"}] the band is [[110, 264]], and for
    every random source the first hop is emitted at [y = 280], below it: the
    start cursor is pushed before [constrain] is ever applied. *)
Theorem hops_default_first_platform_below_band `{R : RandomSource} (s : rstate) :
  exists p, nth_error (fst (generatePlatforms hops_default s)) 1 = Some p /\
            Rect.y p = 280 /\
            ~ in_band (Gen.floorY hops_default ?? 324) p.
Proof.
  destruct (hops_first_platform hops_default s eq_refl) as (p & Hp & _ & Hy);
    [reflexivity|].
  exists p. split; [exact Hp|]. split; [exact Hy|].
  unfold in_band. rewrite Hy. intros [_ H]. revert H. apply Qlt_not_le.
  reflexivity.
Qed.

(** ** Determinism under seeding *)

(** The values a sequence of calls [random(lo, hi)] returns from a state. *)
Fixpoint draws `{R : RandomSource} (reqs : list (Q * Q)) (s : rstate) : list Q :=
  match reqs with
  | [] => []
  | (lo, hi) :: reqs' => let (v, s') := random lo hi s in v :: draws reqs' s'
  end.

(** Two states from which every sequence of draws is the same. *)
Definition same_draws `{R : RandomSource} (s1 s2 : rstate) : Prop :=
  forall reqs, draws reqs s1 = draws reqs s2.

(** The contract of the random source: the same seed yields the same
    sequence of draws, whatever the state before. *)
Definition seed_contract (R : RandomSource) : Prop :=
  forall (seed : Q) (s1 s2 : rstate),
    same_draws (randomSeed seed s1) (randomSeed seed s2).

Section SameDraws.

Context `{R : RandomSource}.

Lemma same_draws_random (lo hi : Q) (s1 s2 : rstate) :
  same_draws s1 s2 ->
  fst (random lo hi s1) = fst (random lo hi s2) /\
  same_draws (snd (random lo hi s1)) (snd (random lo hi s2)).
Proof.
  intro H. split.
  - specialize (H [(lo, hi)]). cbn [draws] in H.
    destruct (random lo hi s1), (random lo hi s2). now inversion H.
  - intro reqs. specialize (H ((lo, hi) :: reqs)). cbn [draws] in H.
    destruct (random lo hi s1), (random lo hi s2). now inversion H.
Qed.

Variables platH platWMin platWMax gapMin gapMax riseMin riseMax minY maxY : Q.

Lemma hops_from_same_draws (n : nat) (x y : Q) (s1 s2 : rstate) :
  same_draws s1 s2 ->
  fst (hops_from platH platWMin platWMax gapMin gapMax riseMin riseMax
         minY maxY n x y s1) =
  fst (hops_from platH platWMin platWMax gapMin gapMax riseMin riseMax
         minY maxY n x y s2).
Proof.
  revert x y s1 s2. induction n as [|n IH]; intros x y s1 s2 H; [reflexivity|].
  cbn [hops_from]. unfold bind, draw.
  destruct (same_draws_random platWMin (platWMax + 1) s1 s2 H) as [Er H1].
  destruct (random platWMin (platWMax + 1) s1) as [r s1a].
  destruct (random platWMin (platWMax + 1) s2) as [r' s2a].
  cbn [fst snd] in Er, H1. subst r'.
  destruct (same_draws_random gapMin (gapMax + 1) s1a s2a H1) as [Eg H2].
  destruct (random gapMin (gapMax + 1) s1a) as [g s1b].
  destruct (random gapMin (gapMax + 1) s2a) as [g' s2b].
  cbn [fst snd] in Eg, H2. subst g'.
  destruct (same_draws_random riseMin (riseMax + 1) s1b s2b H2) as [Ed H3].
  destruct (random riseMin (riseMax + 1) s1b) as [d s1c].
  destruct (random riseMin (riseMax + 1) s2b) as [d' s2c].
  cbn [fst snd] in Ed, H3. subst d'.
  specialize (IH (x + floor r + floor g) (constrain (y - floor d) minY maxY)
                 s1c s2c H3).
  destruct (hops_from _ _ _ _ _ _ _ _ _ n _ _ s1c) as [rest1 s1d].
  destruct (hops_from _ _ _ _ _ _ _ _ _ n _ _ s2c) as [rest2 s2d].
  cbn [fst snd ret] in *. now rewrite IH.
Qed.

End SameDraws.

(** The linear congruential generator forgets its state when it is seeded. *)
Lemma LCG_seed_contract : seed_contract LCG.
Proof. intros seed s1 s2 reqs. reflexivity. Qed.

(** C3. For every random-hops config that carries a numeric seed, two calls
    of the generator with that config, from whatever states of the random
    source, return the same sequence of rectangles, provided the source keeps
    its contract that the same seed yields the same sequence of draws. *)
Theorem hops_seeded_deterministic `{R : RandomSource}
  (gen : Gen.t) (seed : Q) (s1 s2 : rstate) :
  seed_contract R ->
  Gen.type gen = VStr "randomHops" ->
  Gen.seed gen = VNum seed ->
  fst (generatePlatforms gen s1) = fst (generatePlatforms gen s2).
Proof.
  intros HR Ht Hs. rewrite !(generatePlatforms_hops gen _ Ht). cbn [fst].
  f_equal. unfold after_seed. rewrite Hs. apply hops_from_same_draws, HR.
Qed.

(** A seeded random-hops config with four hops. *)
Definition hops_seeded : Gen.t :=
  {| Gen.type := VStr "randomHops"; Gen.seed := VNum 42;
     Gen.worldW := None; Gen.floorY := None; Gen.floorH := None;
     Gen.startX := None; Gen.startY := None; Gen.stepW := None; Gen.stepH := None;
     Gen.rise := None; Gen.count := Some 4; Gen.platH := None;
     Gen.platWMin := None; Gen.platWMax := None; Gen.gapMin := None; Gen.gapMax := None;
     Gen.riseMin := None; Gen.riseMax := None |}.

Lemma hops_seeded_deterministic_witness :
  seed_contract LCG /\
  Gen.type hops_seeded = VStr "randomHops" /\
  Gen.seed hops_seeded = VNum 42 /\
  fst (@generatePlatforms LCG hops_seeded 7%Z) =
  fst (@generatePlatforms LCG hops_seeded 2024%Z).
Proof.
  split; [intros seed s1 s2 reqs; reflexivity|].
  split; [reflexivity|]. split; [reflexivity|].
  apply (hops_seeded_deterministic (R := LCG) hops_seeded 42 7%Z 2024%Z);
    [intros seed s1 s2 reqs; reflexivity | reflexivity | reflexivity].
Defined.

(** What the seeded generator returns on the linear congruential source. *)
Example hops_seeded_run :
  fst (@generatePlatforms LCG hops_seeded 7%Z) =
  [ {| Rect.x := 0; Rect.y := 324; Rect.w := 900; Rect.h := 36 |};
    {| Rect.x := 140; Rect.y := 280; Rect.w := 82; Rect.h := 12 |};
    {| Rect.x := 280; Rect.y := 264; Rect.w := 81; Rect.h := 12 |};
    {| Rect.x := 431; Rect.y := 264; Rect.w := 92; Rect.h := 12 |};
    {| Rect.x := 582; Rect.y := 244; Rect.w := 120; Rect.h := 12 |} ].
Proof. vm_compute. reflexivity. Qed.

(** Without a seed the output follows the state of the source. *)
Example hops_unseeded_differ :
  fst (@generatePlatforms LCG hops_default 7%Z) <>
  fst (@generatePlatforms LCG hops_default 2024%Z).
Proof. vm_compute. discriminate. Qed.

(** ** The stairs generator and the random source *)

(** A stairs config that carries a seed. *)
Definition stairs_seeded : Gen.t :=
  {| Gen.type := VStr "stairs"; Gen.seed := VNum 42;
     Gen.worldW := None; Gen.floorY := None; Gen.floorH := None;
     Gen.startX := None; Gen.startY := None; Gen.stepW := None; Gen.stepH := None;
     Gen.rise := None; Gen.count := Some 2; Gen.platH := None;
     Gen.platWMin := None; Gen.platWMax := None; Gen.gapMin := None; Gen.gapMax := None;
     Gen.riseMin := None; Gen.riseMax := None |}.

(** The claim C4 as it is written fails: the seed test runs before the type
    is looked at, so a stairs config with a numeric seed re-seeds the shared
    source. From the state 7 the source is left in the state 42. *)
Lemma stairs_seeded_reseeds :
  Gen.type stairs_seeded = VStr "stairs" /\
  snd (@generatePlatforms LCG stairs_seeded 7%Z) = 42%Z /\
  snd (@generatePlatforms LCG stairs_seeded 7%Z) <> 7%Z.
Proof. vm_compute. repeat split; discriminate. Qed.

(** C4, amended. For every stairs config the generator makes no draw from
    the random source and its output is the staircase of its numeric
    parameters alone, whatever the source, its state and the seed. The state
    of the source is left unchanged when the config carries no numeric seed;
    when it carries one, the source is re-seeded with it and nothing else
    happens to it. *)
Theorem stairs_output_pure_state_reseeded `{R : RandomSource}
  (gen : Gen.t) (s : rstate) (c : nat) :
  Gen.type gen = VStr "stairs" ->
  fst (generatePlatforms gen s) =
    stairs_spec (Gen.worldW gen ?? 640) (Gen.floorY gen ?? 324)
      (Gen.floorH gen ?? 36) (Gen.startX gen ?? 120) (Gen.startY gen ?? 290)
      (Gen.stepW gen ?? 80) (Gen.stepH gen ?? 12) (Gen.rise gen ?? 22)
      (loop_bound (Gen.count gen ?? 8)) /\
  (typeof_number (Gen.seed gen) = false -> snd (generatePlatforms gen s) = s) /\
  (forall seed, Gen.seed gen = VNum seed ->
     snd (generatePlatforms gen s) = randomSeed seed s) /\
  snd (snd (@generatePlatforms (Counting R) gen (s, c))) = c.
Proof.
  intro Ht. rewrite (generatePlatforms_stairs gen s Ht).
  rewrite (generatePlatforms_stairs (R := Counting R) gen (s, c) Ht).
  cbn [fst snd]. unfold after_seed.
  split; [reflexivity|]. split; [|split].
  - intro Hs. destruct (Gen.seed gen); try reflexivity. discriminate.
  - intros seed Hs. now rewrite Hs.
  - destruct (Gen.seed gen); reflexivity.
Qed.

Lemma stairs_output_pure_state_reseeded_witness :
  Gen.type stairs_seeded = VStr "stairs" /\
  fst (@generatePlatforms LCG stairs_seeded 7%Z) =
    [ {| Rect.x := 0; Rect.y := 324; Rect.w := 640; Rect.h := 36 |};
      {| Rect.x := 120; Rect.y := 290; Rect.w := 80; Rect.h := 12 |};
      {| Rect.x := 200; Rect.y := 268; Rect.w := 80; Rect.h := 12 |} ] /\
  snd (snd (@generatePlatforms (Counting LCG) stairs_seeded (7%Z, 5%nat))) = 5%nat.
Proof.
  split; [reflexivity|].
  pose proof (stairs_output_pure_state_reseeded (R := LCG) stairs_seeded 7%Z 5
                eq_refl) as (Hout & _ & _ & Hcount).
  split; [exact Hout | exact Hcount].
Defined.

(** ** The constructor: platforms *)

(** The authored platforms: [levelJson.platforms] when it is an array. *)
Definition authored (levelJson : LevelJson.t) : list Rect.t :=
  match LevelJson.platforms levelJson with
  | Obj arr => arr
  | Prim _ => []
  end.

Section Constructor.

Context `{R : RandomSource}.

(** The platforms of the built level and the state the constructor leaves
    the random source in, according to the truthiness of [generated]. *)
Lemma constructor_platforms (levelJson : LevelJson.t) (s : rstate) :
  Level.platforms (fst (constructor levelJson s)) =
    map Platform.new
      (authored levelJson ++
       (if truthy_field (LevelJson.generated levelJson)
        then fst (generatePlatforms (Gen.of_field (LevelJson.generated levelJson)) s)
        else [])).
Proof.
  unfold constructor, authored, bind, JS.concat.
  destruct (LevelJson.platforms levelJson) as [v|arr]; cbn [Array_isArray];
    destruct (truthy_field (LevelJson.generated levelJson));
    try destruct (generatePlatforms _ s) as [g s'];
    cbn [fst snd ret Level.platforms]; try reflexivity;
    now rewrite app_nil_r.
Qed.

Lemma constructor_state (levelJson : LevelJson.t) (s : rstate) :
  snd (constructor levelJson s) =
    if truthy_field (LevelJson.generated levelJson)
    then snd (generatePlatforms (Gen.of_field (LevelJson.generated levelJson)) s)
    else s.
Proof.
  unfold constructor, bind.
  destruct (truthy_field (LevelJson.generated levelJson));
    try destruct (generatePlatforms _ s) as [g s']; reflexivity.
Qed.

(** The fields the constructor resolves without the random source. *)
Lemma constructor_fields (levelJson : LevelJson.t) (s : rstate) :
  let L := fst (constructor levelJson s) in
  Level.name L = or_else (LevelJson.name levelJson) (VStr "Level") /\
  Level.theme L =
    Object_assign
      {| Theme.bg := VStr "#F0F0F0"; Theme.platform := VStr "#C8C8C8";
         Theme.blob := VStr "#1478FF" |}
      (theme_or_empty (LevelJson.theme levelJson)) /\
  Level.gravity L = coalesce (LevelJson.gravity levelJson) (VNum 0.65) /\
  Level.jumpV L = coalesce (LevelJson.jumpV levelJson) (VNum (-11.0)) /\
  Start.x (Level.start L) =
    coalesce (opt_chain (LevelJson.start levelJson) Start.x) (VNum 80) /\
  Start.y (Level.start L) =
    coalesce (opt_chain (LevelJson.start levelJson) Start.y) (VNum 180) /\
  Start.r (Level.start L) =
    coalesce (opt_chain (LevelJson.start levelJson) Start.r) (VNum 26).
Proof.
  unfold constructor, bind.
  destruct (truthy_field (LevelJson.generated levelJson));
    try destruct (generatePlatforms _ s) as [g s'];
    cbn [fst ret]; repeat split; reflexivity.
Qed.

End Constructor.

(** C5. For every level JSON with an authored platforms array and a
    generated config, the platforms of the built level are the authored ones
    in their array order followed by the generated ones in emission order,
    whatever the type of the generator; the length is the sum of both. *)
Theorem platforms_authored_then_generated `{R : RandomSource}
  (levelJson : LevelJson.t) (arr : list Rect.t) (gen : Gen.t) (s : rstate) :
  LevelJson.platforms levelJson = Obj arr ->
  LevelJson.generated levelJson = Obj gen ->
  Level.platforms (fst (constructor levelJson s)) =
    map Platform.new arr ++ map Platform.new (fst (generatePlatforms gen s)) /\
  List.length (Level.platforms (fst (constructor levelJson s))) =
    (List.length arr + List.length (fst (generatePlatforms gen s)))%nat.
Proof.
  intros Hp Hg. rewrite constructor_platforms. unfold authored.
  rewrite Hp, Hg. cbn [truthy_field Gen.of_field].
  rewrite map_app. split; [reflexivity|].
  now rewrite length_app, !length_map.
Qed.

(** A level with two authored platforms and a staircase of two steps. *)
Definition level_two_plus_three : LevelJson.t :=
  {| LevelJson.name := VStr "Intro Steps";
     LevelJson.gravity := VUndefined;
     LevelJson.jumpV := VUndefined;
     LevelJson.theme := Prim VUndefined;
     LevelJson.start := Prim VUndefined;
     LevelJson.platforms :=
       Obj [ {| Rect.x := 0; Rect.y := 300; Rect.w := 10; Rect.h := 4 |};
             {| Rect.x := 20; Rect.y := 200; Rect.w := 5; Rect.h := 4 |} ];
     LevelJson.generated := Obj stairs_seeded |}.

Lemma platforms_authored_then_generated_witness :
  Level.platforms (fst (@constructor LCG level_two_plus_three 7%Z)) =
    [ {| Platform.x := 0; Platform.y := 300; Platform.w := 10; Platform.h := 4 |};
      {| Platform.x := 20; Platform.y := 200; Platform.w := 5; Platform.h := 4 |};
      {| Platform.x := 0; Platform.y := 324; Platform.w := 640; Platform.h := 36 |};
      {| Platform.x := 120; Platform.y := 290; Platform.w := 80; Platform.h := 12 |};
      {| Platform.x := 200; Platform.y := 268; Platform.w := 80; Platform.h := 12 |} ] /\
  List.length (Level.platforms (fst (@constructor LCG level_two_plus_three 7%Z))) = 5%nat.
Proof.
  exact (platforms_authored_then_generated (R := LCG) level_two_plus_three
           _ stairs_seeded 7%Z eq_refl eq_refl).
Defined.

(** ** The constructor: defaults *)

(** A value that counts as absent for [??]. *)
Definition absent (v : value) : Prop := v = VUndefined \/ v = VNull.

(** [result] is [input], unless [input] is absent: then it is [default]. *)
Definition defaulted (input default result : value) : Prop :=
  (absent input -> result = default) /\ (~ absent input -> result = input).

Lemma coalesce_defaulted (input default : value) :
  defaulted input default (coalesce input default).
Proof.
  unfold defaulted, absent, coalesce. split.
  - intros [-> | ->]; reflexivity.
  - intro H. destruct input; cbn; try reflexivity; exfalso; apply H; auto.
Qed.

(** The key of [start] the constructor reads: [undefined] when [start]
    holds no object. *)
Definition start_key (levelJson : LevelJson.t) (k : Start.t -> value) : value :=
  match LevelJson.start levelJson with
  | Obj o => k o
  | Prim _ => VUndefined
  end.

(** C6. [gravity], [jumpV] and each of [start.x], [start.y], [start.r] are
    defaulted one by one, and only [null] and [undefined] count as absent:
    the built level holds the value given (so [0] stays [0]) and otherwise
    the default, 0.65, -11.0, 80, 180 and 26. *)
Theorem physics_and_spawn_defaulted `{R : RandomSource}
  (levelJson : LevelJson.t) (s : rstate) :
  let L := fst (constructor levelJson s) in
  defaulted (LevelJson.gravity levelJson) (VNum 0.65) (Level.gravity L) /\
  defaulted (LevelJson.jumpV levelJson) (VNum (-11.0)) (Level.jumpV L) /\
  defaulted (start_key levelJson Start.x) (VNum 80) (Start.x (Level.start L)) /\
  defaulted (start_key levelJson Start.y) (VNum 180) (Start.y (Level.start L)) /\
  defaulted (start_key levelJson Start.r) (VNum 26) (Start.r (Level.start L)).
Proof.
  destruct (constructor_fields levelJson s) as (_ & _ & Hg & Hj & Hx & Hy & Hr).
  cbv zeta. rewrite Hg, Hj, Hx, Hy, Hr.
  repeat split; apply (coalesce_defaulted _ _).
Qed.

(** A level with [gravity: 0], [jumpV: 0] and [start: {y: 50}]. *)
Definition level_zero_gravity : LevelJson.t :=
  {| LevelJson.name := VUndefined;
     LevelJson.gravity := VNum 0;
     LevelJson.jumpV := VNum 0;
     LevelJson.theme := Prim VUndefined;
     LevelJson.start :=
       Obj {| Start.x := VUndefined; Start.y := VNum 50; Start.r := VUndefined |};
     LevelJson.platforms := Prim VUndefined;
     LevelJson.generated := Prim VUndefined |}.

(** The level [{}]: every field is missing. *)
Definition level_empty : LevelJson.t :=
  {| LevelJson.name := VUndefined;
     LevelJson.gravity := VUndefined;
     LevelJson.jumpV := VUndefined;
     LevelJson.theme := Prim VUndefined;
     LevelJson.start := Prim VUndefined;
     LevelJson.platforms := Prim VUndefined;
     LevelJson.generated := Prim VUndefined |}.

Lemma physics_and_spawn_defaulted_witness :
  let L := fst (@constructor LCG level_zero_gravity 7%Z) in
  Level.gravity L = VNum 0 /\ Level.jumpV L = VNum 0 /\
  Level.start L = {| Start.x := VNum 80; Start.y := VNum 50; Start.r := VNum 26 |}.
Proof.
  pose proof (physics_and_spawn_defaulted (R := LCG) level_zero_gravity 7%Z)
    as (Hg & Hj & Hx & Hy & Hr).
  cbv zeta in *. split; [|split].
  - apply (proj2 Hg). intros [H | H]; discriminate H.
  - apply (proj2 Hj). intros [H | H]; discriminate H.
  - reflexivity.
Defined.

Example level_empty_defaults :
  let L := fst (@constructor LCG level_empty 7%Z) in
  Level.name L = VStr "Level" /\
  Level.gravity L = VNum 0.65 /\ Level.jumpV L = VNum (-11.0) /\
  Level.start L = {| Start.x := VNum 80; Start.y := VNum 180; Start.r := VNum 26 |} /\
  Level.theme L = {| Theme.bg := VStr "#F0F0F0"; Theme.platform := VStr "#C8C8C8";
                     Theme.blob := VStr "#1478FF" |} /\
  Level.platforms L = [].
Proof. vm_compute. repeat split. Qed.

(** ** Unknown generator types and falsy [generated] *)

Lemma strict_eq_string_false (v : value) (lit : string) :
  v <> VStr lit -> strict_eq_string v lit = false.
Proof.
  intro H. destruct v; try reflexivity. cbn.
  destruct (String.eqb_spec s lit); [subst; now elim H | reflexivity].
Qed.

(** The generator on a type that is neither ["stairs"] nor ["randomHops"]. *)
Lemma generatePlatforms_unknown `{R : RandomSource} (gen : Gen.t) (s : rstate) :
  Gen.type gen <> VStr "stairs" ->
  Gen.type gen <> VStr "randomHops" ->
  generatePlatforms gen s = ([], after_seed gen s).
Proof.
  intros H1 H2. unfold generatePlatforms, after_seed, bind.
  rewrite (strict_eq_string_false _ _ H1), (strict_eq_string_false _ _ H2).
  destruct (Gen.seed gen); reflexivity.
Qed.

(** C8. For every generator config whose type is neither ["stairs"] nor
    ["randomHops"], the generator returns the empty sequence, and a level
    built with such a config holds exactly its authored platforms. The
    generator and the constructor are total functions: there is no error to
    raise. *)
Theorem unknown_type_generates_nothing `{R : RandomSource}
  (gen : Gen.t) (s : rstate) :
  Gen.type gen <> VStr "stairs" ->
  Gen.type gen <> VStr "randomHops" ->
  fst (generatePlatforms gen s) = [] /\
  forall levelJson : LevelJson.t,
    LevelJson.generated levelJson = Obj gen ->
    Level.platforms (fst (constructor levelJson s)) =
      map Platform.new (authored levelJson).
Proof.
  intros H1 H2. rewrite (generatePlatforms_unknown gen s H1 H2).
  split; [reflexivity|].
  intros levelJson Hg. rewrite constructor_platforms, Hg.
  cbn [truthy_field Gen.of_field].
  rewrite (generatePlatforms_unknown gen s H1 H2). cbn [fst].
  now rewrite app_nil_r.
Qed.

(** The config [{type:"teleport"}]. *)
Definition gen_teleport : Gen.t :=
  {| Gen.type := VStr "teleport"; Gen.seed := VUndefined;
     Gen.worldW := None; Gen.floorY := None; Gen.floorH := None;
     Gen.startX := None; Gen.startY := None; Gen.stepW := None; Gen.stepH := None;
     Gen.rise := None; Gen.count := None; Gen.platH := None;
     Gen.platWMin := None; Gen.platWMax := None; Gen.gapMin := None; Gen.gapMax := None;
     Gen.riseMin := None; Gen.riseMax := None |}.

Definition level_teleport : LevelJson.t :=
  {| LevelJson.name := VStr "Warp";
     LevelJson.gravity := VUndefined;
     LevelJson.jumpV := VUndefined;
     LevelJson.theme := Prim VUndefined;
     LevelJson.start := Prim VUndefined;
     LevelJson.platforms :=
       Obj [ {| Rect.x := 0; Rect.y := 300; Rect.w := 10; Rect.h := 4 |} ];
     LevelJson.generated := Obj gen_teleport |}.

Lemma unknown_type_generates_nothing_witness :
  Gen.type gen_teleport <> VStr "stairs" /\
  Gen.type gen_teleport <> VStr "randomHops" /\
  fst (@generatePlatforms LCG gen_teleport 7%Z) = [] /\
  Level.platforms (fst (@constructor LCG level_teleport 7%Z)) =
    [ {| Platform.x := 0; Platform.y := 300; Platform.w := 10; Platform.h := 4 |} ].
Proof.
  assert (H1 : Gen.type gen_teleport <> VStr "stairs") by discriminate.
  assert (H2 : Gen.type gen_teleport <> VStr "randomHops") by discriminate.
  split; [exact H1|]. split; [exact H2|].
  destruct (unknown_type_generates_nothing (R := LCG) gen_teleport 7%Z H1 H2)
    as [Hgen Hlevel].
  split; [exact Hgen|]. exact (Hlevel level_teleport eq_refl).
Defined.

(** The falsy values: what [generated] may hold without being an object. *)
Lemma falsy_values (v : value) :
  In v [VUndefined; VNull; VBool false; VNum 0; VStr ""] ->
  truthy_field (@Prim Gen.t v) = false.
Proof.
  cbn [In]. intros [<- | [<- | [<- | [<- | [<- | []]]]]]; reflexivity.
Qed.

(** C10. The generator runs on the truthiness of [generated], not on the
    presence of the key: for every level JSON whose [generated] is falsy (as
    [0], [false], [""] and [null] are), no generator runs, the random source
    is left in the state it was in (it is neither re-seeded nor drawn from),
    and the platforms of the built level are the authored ones, mapped. *)
Theorem falsy_generated_runs_no_generator `{R : RandomSource}
  (levelJson : LevelJson.t) (s : rstate) (c : nat) :
  truthy_field (LevelJson.generated levelJson) = false ->
  Level.platforms (fst (constructor levelJson s)) =
    map Platform.new (authored levelJson) /\
  snd (constructor levelJson s) = s /\
  snd (@constructor (Counting R) levelJson (s, c)) = (s, c).
Proof.
  intro Hf. rewrite constructor_platforms, constructor_state.
  rewrite (constructor_state (R := Counting R)). rewrite Hf.
  rewrite app_nil_r. repeat split.
Qed.

(** A level with one authored platform and [generated: 0]. *)
Definition level_generated_zero : LevelJson.t :=
  {| LevelJson.name := VStr "Flat";
     LevelJson.gravity := VUndefined;
     LevelJson.jumpV := VUndefined;
     LevelJson.theme := Prim VUndefined;
     LevelJson.start := Prim VUndefined;
     LevelJson.platforms :=
       Obj [ {| Rect.x := 0; Rect.y := 300; Rect.w := 10; Rect.h := 4 |} ];
     LevelJson.generated := Prim (VNum 0) |}.

Lemma falsy_generated_runs_no_generator_witness :
  truthy_field (LevelJson.generated level_generated_zero) = false /\
  Level.platforms (fst (@constructor LCG level_generated_zero 7%Z)) =
    [ {| Platform.x := 0; Platform.y := 300; Platform.w := 10; Platform.h := 4 |} ] /\
  snd (@constructor LCG level_generated_zero 7%Z) = 7%Z.
Proof.
  split; [reflexivity|].
  destruct (falsy_generated_runs_no_generator (R := LCG) level_generated_zero
              7%Z 0 eq_refl) as (Hp & Hs & _).
  split; [exact Hp | exact Hs].
Defined.

(** A truthy primitive does run the generator, on an object with no key:
    nothing is generated. *)
Lemma truthy_primitive_generates_nothing `{R : RandomSource}
  (levelJson : LevelJson.t) (v : value) (s : rstate) :
  LevelJson.generated levelJson = Prim v ->
  truthy v = true ->
  constructor levelJson s =
    (fst (constructor levelJson s), s) /\
  Level.platforms (fst (constructor levelJson s)) =
    map Platform.new (authored levelJson).
Proof.
  intros Hg Hv. split.
  - rewrite (surjective_pairing (constructor levelJson s)) at 1.
    rewrite constructor_state, Hg. cbn [truthy_field Gen.of_field]. rewrite Hv.
    reflexivity.
  - rewrite constructor_platforms, Hg. cbn [truthy_field Gen.of_field].
    rewrite Hv. cbn. now rewrite app_nil_r.
Qed.

(** ** The constructor: populated fields *)

(** The nine documented scalar fields of a built level all hold a value. *)
Definition all_populated (L : Level.t) : Prop :=
  populated (Level.name L) /\
  populated (Theme.bg (Level.theme L)) /\
  populated (Theme.platform (Level.theme L)) /\
  populated (Theme.blob (Level.theme L)) /\
  populated (Level.gravity L) /\
  populated (Level.jumpV L) /\
  populated (Start.x (Level.start L)) /\
  populated (Start.y (Level.start L)) /\
  populated (Start.r (Level.start L)).

(** A key of the theme object that is missing or holds a value. *)
Definition key_missing_or_set (k : option value) : Prop :=
  match k with
  | Some v => populated v
  | None => True
  end.

(** No key of the theme object holds [null] or [undefined]. *)
Definition theme_keys_set (theme : field ThemeJson.t) : Prop :=
  match theme with
  | Obj o =>
      key_missing_or_set (ThemeJson.bg o) /\
      key_missing_or_set (ThemeJson.platform o) /\
      key_missing_or_set (ThemeJson.blob o)
  | Prim _ => True
  end.

Lemma or_else_populated (a : value) (lit : string) :
  populated (or_else a (VStr lit)).
Proof.
  unfold or_else, populated. destruct a; cbn; try (split; discriminate).
  - destruct b; split; discriminate.
  - destruct (negb (Qeq_bool n 0)); split; discriminate.
  - destruct (negb (String.eqb s "")); split; discriminate.
Qed.

Lemma coalesce_populated (a : value) (n : Q) : populated (coalesce a (VNum n)).
Proof.
  unfold coalesce, populated. destruct a; cbn; split; discriminate.
Qed.

Lemma assign_key_populated (lit : string) (k : option value) :
  key_missing_or_set k -> populated (assign_key (VStr lit) k).
Proof.
  destruct k as [v|]; cbn; [trivial|]. intros _. split; discriminate.
Qed.

(** The level [{"theme": {"bg": null}}]. *)
Definition level_null_bg : LevelJson.t :=
  {| LevelJson.name := VUndefined;
     LevelJson.gravity := VUndefined;
     LevelJson.jumpV := VUndefined;
     LevelJson.theme :=
       Obj {| ThemeJson.bg := Some VNull; ThemeJson.platform := None;
              ThemeJson.blob := None |};
     LevelJson.start := Prim VUndefined;
     LevelJson.platforms := Prim VUndefined;
     LevelJson.generated := Prim VUndefined |}.

(** The claim C9 as it is written fails: [Object.assign] copies the keys of
    the theme object with whatever they hold, so a theme whose [bg] is
    [null] leaves [theme.bg] at [null] in the built level. *)
Lemma null_theme_key_leaks :
  Theme.bg (Level.theme (fst (@constructor LCG level_null_bg 7%Z))) = VNull /\
  ~ all_populated (fst (@constructor LCG level_null_bg 7%Z)).
Proof.
  split; [reflexivity|].
  intros (_ & [_ H] & _). now apply H.
Qed.

(** C9, amended. The constructor is a total function of the level JSON: for
    every level JSON it returns a level. When no key of the theme object
    holds [null] or [undefined] (any subset of the three keys may be
    missing), the name, the three theme colours, [gravity], [jumpV] and the
    three spawn coordinates of the built level are neither [null] nor
    [undefined]. The six fields outside the theme are so for every level
    JSON. *)
Theorem built_level_populated `{R : RandomSource}
  (levelJson : LevelJson.t) (s : rstate) :
  (exists L s', constructor levelJson s = (L, s')) /\
  (let L := fst (constructor levelJson s) in
   populated (Level.name L) /\ populated (Level.gravity L) /\
   populated (Level.jumpV L) /\ populated (Start.x (Level.start L)) /\
   populated (Start.y (Level.start L)) /\ populated (Start.r (Level.start L))) /\
  (theme_keys_set (LevelJson.theme levelJson) ->
   all_populated (fst (constructor levelJson s))).
Proof.
  destruct (constructor_fields levelJson s)
    as (Hn & Ht & Hg & Hj & Hx & Hy & Hr).
  cbv zeta in *.
  assert (Hsix : populated (Level.name (fst (constructor levelJson s))) /\
                 populated (Level.gravity (fst (constructor levelJson s))) /\
                 populated (Level.jumpV (fst (constructor levelJson s))) /\
                 populated (Start.x (Level.start (fst (constructor levelJson s)))) /\
                 populated (Start.y (Level.start (fst (constructor levelJson s)))) /\
                 populated (Start.r (Level.start (fst (constructor levelJson s))))).
  { rewrite Hn, Hg, Hj, Hx, Hy, Hr.
    repeat split; try apply or_else_populated; apply coalesce_populated. }
  split; [|split].
  - destruct (constructor levelJson s) as [L s']. now exists L, s'.
  - exact Hsix.
  - intro Hkeys. destruct Hsix as (P1 & P2 & P3 & P4 & P5 & P6).
    unfold all_populated. rewrite Ht.
    repeat split; try (apply P1 || apply P2 || apply P3 || apply P4 ||
                       apply P5 || apply P6);
    unfold theme_or_empty, theme_keys_set in *;
    destruct (LevelJson.theme levelJson) as [v|o]; cbn [truthy_field];
    try (destruct (truthy v)); cbn [Object_assign Theme.bg Theme.platform Theme.blob
                                     ThemeJson.empty ThemeJson.bg ThemeJson.platform
                                     ThemeJson.blob assign_key];
    try discriminate;
    try (destruct Hkeys as (K1 & K2 & K3);
         first [ apply (assign_key_populated _ _ K1)
               | apply (assign_key_populated _ _ K2)
               | apply (assign_key_populated _ _ K3) ]).
Qed.

(** A level whose theme sets the key [blob] alone. *)
Definition level_blob_only : LevelJson.t :=
  {| LevelJson.name := VStr "";
     LevelJson.gravity := VNull;
     LevelJson.jumpV := VUndefined;
     LevelJson.theme :=
       Obj {| ThemeJson.bg := None; ThemeJson.platform := None;
              ThemeJson.blob := Some (VStr "#FF0000") |};
     LevelJson.start := Prim VNull;
     LevelJson.platforms := Prim VNull;
     LevelJson.generated := Prim VNull |}.

Lemma built_level_populated_witness :
  theme_keys_set (LevelJson.theme level_blob_only) /\
  all_populated (fst (@constructor LCG level_blob_only 7%Z)) /\
  Level.theme (fst (@constructor LCG level_blob_only 7%Z)) =
    {| Theme.bg := VStr "#F0F0F0"; Theme.platform := VStr "#C8C8C8";
       Theme.blob := VStr "#FF0000" |}.
Proof.
  assert (K : theme_keys_set (LevelJson.theme level_blob_only)).
  { cbn. repeat split; discriminate. }
  split; [exact K|]. split; [|reflexivity].
  exact (proj2 (proj2 (built_level_populated (R := LCG) level_blob_only 7%Z)) K).
Defined.

(** ** Geometry inference *)

(** [m] is the maximum of the list [l]: one of its elements, and above all
    of them. *)
Definition is_max (m : Q) (l : list Q) : Prop :=
  In m l /\ forall v, In v l -> v <= m.

Lemma Math_max_l (a b : Q) : a <= Math_max a b.
Proof.
  unfold Math_max. destruct (Qle_bool a b) eqn:E.
  - now apply Qle_bool_iff.
  - apply Qle_refl.
Qed.

Lemma Math_max_r (a b : Q) : b <= Math_max a b.
Proof.
  unfold Math_max. destruct (Qle_bool a b) eqn:E.
  - apply Qle_refl.
  - apply Qlt_le_weak, Qnot_le_lt. intro H. apply Qle_bool_iff in H. congruence.
Qed.

Lemma Math_max_cases (a b : Q) : Math_max a b = a \/ Math_max a b = b.
Proof. unfold Math_max. destruct (Qle_bool a b); auto. Qed.

Lemma fold_Math_max_is_max (rest : list Q) (v : Q) :
  is_max (fold_left Math_max rest v) (v :: rest).
Proof.
  revert v. induction rest as [|a rest IH]; intro v; cbn [fold_left].
  - split; [now left|]. intros u [<- | []]. apply Qle_refl.
  - destruct (IH (Math_max v a)) as [Hin Hub]. split.
    + destruct Hin as [Hin | Hin]; [|now right; right].
      rewrite <- Hin.
      destruct (Math_max_cases v a) as [E | E]; rewrite E.
      * now left.
      * right; now left.
    + intros u [<- | [<- | Hu]].
      * eapply Qle_trans; [apply Math_max_l | apply Hub; now left].
      * eapply Qle_trans; [apply Math_max_r | apply Hub; now left].
      * apply Hub. now right.
Qed.

Lemma max_is_max (arr : list Q) :
  arr <> [] -> exists m, max arr = Some m /\ is_max m arr.
Proof.
  destruct arr as [|v rest]; [congruence|]. intros _.
  exists (fold_left Math_max rest v). split; [reflexivity|].
  apply fold_Math_max_is_max.
Qed.

(** The right and bottom edges the helpers map the platforms to. *)
Definition right_edge (p : Platform.t) : Q := Platform.x p + Platform.w p.
Definition bottom_edge (p : Platform.t) : Q := Platform.y p + Platform.h p.

(** C7. [inferWidth(defaultW)] returns [defaultW] when the level has no
    platform and otherwise the maximum of [x + w] over all its platforms;
    [inferHeight(defaultH)] does the same with [y + h]. Both are functions
    of the platforms sequence and of their argument alone: they touch
    neither the level nor the random source. *)
Theorem infer_size_default_or_max (this : Level.t) (defaultW defaultH : Q) :
  (Level.platforms this = [] ->
   inferWidth this (Some defaultW) = defaultW /\
   inferHeight this (Some defaultH) = defaultH) /\
  (Level.platforms this <> [] ->
   is_max (inferWidth this (Some defaultW)) (map right_edge (Level.platforms this)) /\
   is_max (inferHeight this (Some defaultH)) (map bottom_edge (Level.platforms this))) /\
  (forall that : Level.t,
     Level.platforms that = Level.platforms this ->
     inferWidth that (Some defaultW) = inferWidth this (Some defaultW) /\
     inferHeight that (Some defaultH) = inferHeight this (Some defaultH)).
Proof.
  split; [|split].
  - intro He. unfold inferWidth, inferHeight. rewrite He. split; reflexivity.
  - intro Hne. unfold inferWidth, inferHeight.
    destruct (Level.platforms this) as [|p ps] eqn:E; [congruence|].
    cbn [List.length Nat.eqb map max coalesceNum].
    split; apply fold_Math_max_is_max.
  - intros that He. unfold inferWidth, inferHeight. rewrite He.
    split; reflexivity.
Qed.

(** The level of the specification's example: platforms with
    [x = 0, w = 10] and [x = 20, w = 5]. *)
Definition level_built_example : Level.t :=
  {| Level.name := VStr "Level";
     Level.theme := {| Theme.bg := VStr "#F0F0F0"; Theme.platform := VStr "#C8C8C8";
                       Theme.blob := VStr "#1478FF" |};
     Level.gravity := VNum 0.65;
     Level.jumpV := VNum (-11.0);
     Level.start := {| Start.x := VNum 80; Start.y := VNum 180; Start.r := VNum 26 |};
     Level.platforms :=
       [ {| Platform.x := 0; Platform.y := 300; Platform.w := 10; Platform.h := 4 |};
         {| Platform.x := 20; Platform.y := 200; Platform.w := 5; Platform.h := 4 |} ] |}.

Lemma infer_size_default_or_max_witness :
  Level.platforms level_built_example <> [] /\
  is_max (inferWidth level_built_example (Some 640))
    (map right_edge (Level.platforms level_built_example)) /\
  inferWidth level_built_example (Some 640) = 25 /\
  inferHeight level_built_example (Some 360) = 304.
Proof.
  assert (Hne : Level.platforms level_built_example <> []) by discriminate.
  split; [exact Hne|].
  destruct (infer_size_default_or_max level_built_example 640 360) as (_ & Hmax & _).
  split; [exact (proj1 (Hmax Hne))|]. split; reflexivity.
Defined.

(** On a level without platforms the helpers answer their argument, and 640
    and 360 when they are called without one. *)
Example infer_size_empty :
  inferWidth (fst (@constructor LCG level_empty 7%Z)) (Some 800) = 800 /\
  inferHeight (fst (@constructor LCG level_empty 7%Z)) (Some 600) = 600 /\
  inferWidth (fst (@constructor LCG level_empty 7%Z)) None = 640 /\
  inferHeight (fst (@constructor LCG level_empty 7%Z)) None = 360.
Proof. repeat split. Qed.

(** On a built level the maximum runs over the authored and the generated
    platforms alike. *)
Example infer_size_built :
  inferWidth (fst (@constructor LCG level_two_plus_three 7%Z)) None = 640 /\
  inferHeight (fst (@constructor LCG level_two_plus_three 7%Z)) None = 360.
Proof. vm_compute. split; reflexivity. Qed.

(** * Further properties of the generators *)

From Stdlib Require Import Lqa.

(** ** The staircase for any count *)

(** A stairs config that sets [count] alone. *)
Definition stairs_with_count (count : Q) : Gen.t :=
  {| Gen.type := VStr "stairs"; Gen.seed := VUndefined;
     Gen.worldW := None; Gen.floorY := None; Gen.floorH := None;
     Gen.startX := None; Gen.startY := None; Gen.stepW := None; Gen.stepH := None;
     Gen.rise := None; Gen.count := Some count; Gen.platH := None;
     Gen.platWMin := None; Gen.platWMax := None; Gen.gapMin := None; Gen.gapMax := None;
     Gen.riseMin := None; Gen.riseMax := None |}.

Lemma loop_bound_nonpositive (count : Q) : count <= 0 -> loop_bound count = 0%nat.
Proof.
  intro H. unfold loop_bound. apply Qceiling_resp_le in H.
  change (Qceiling 0) with 0%Z in H. lia.
Qed.

(** The loop [for (let i = 0; i < count; i++)] of the stairs branch runs
    [ceil(count)] times for any number [count], and not at all when
    [count <= 0]: then the floor is all there is. *)
Theorem stairs_length_ceiling `{R : RandomSource} (gen : Gen.t) (s : rstate) :
  Gen.type gen = VStr "stairs" ->
  List.length (fst (generatePlatforms gen s)) =
    S (Z.to_nat (Qceiling (Gen.count gen ?? 8))) /\
  (Gen.count gen ?? 8 <= 0 ->
   fst (generatePlatforms gen s) =
     [ {| Rect.x := 0; Rect.y := Gen.floorY gen ?? 324;
          Rect.w := Gen.worldW gen ?? 640; Rect.h := Gen.floorH gen ?? 36 |} ]).
Proof.
  intro Ht. rewrite (generatePlatforms_stairs gen s Ht). cbn [fst]. split.
  - unfold stairs_of, stairs_spec. cbn [List.length].
    now rewrite length_map, length_seq.
  - intro Hc. now rewrite (loop_bound_nonpositive _ Hc).
Qed.

Lemma stairs_length_ceiling_witness :
  List.length (fst (@generatePlatforms LCG (stairs_with_count 2.5) 7%Z)) = 4%nat /\
  fst (@generatePlatforms LCG (stairs_with_count (-3)) 7%Z) =
    [ {| Rect.x := 0; Rect.y := 324; Rect.w := 640; Rect.h := 36 |} ].
Proof.
  split.
  - exact (proj1 (stairs_length_ceiling (R := LCG) (stairs_with_count 2.5) 7%Z eq_refl)).
  - apply (proj2 (stairs_length_ceiling (R := LCG) (stairs_with_count (-3)) 7%Z eq_refl)).
    discriminate.
Defined.




(** ** The hops: draws, widths and gaps *)

(** The contract of [random(lo, hi)] on its range: a value from [lo]
    (included) up to [hi] (excluded). *)
Definition range_contract (R : RandomSource) : Prop :=
  forall (lo hi : Q) (s : rstate),
    lo < hi -> lo <= fst (random lo hi s) /\ fst (random lo hi s) < hi.

Lemma LCG_range_contract : range_contract LCG.
Proof.
  intros lo hi s Hlh. cbn [random LCG lcg_random fst].
  assert (Hsw : JS.lt hi lo = false).
  { apply lt_false_iff. now apply Qlt_le_weak. }
  rewrite Hsw.
  set (z := ((lcg_a * s + lcg_c) mod lcg_m)%Z).
  assert (Hz : (0 <= z < lcg_m)%Z) by (apply Z.mod_pos_bound; reflexivity).
  assert (Hm : 0 < inject_Z lcg_m) by reflexivity.
  assert (H0 : 0 <= inject_Z z / inject_Z lcg_m).
  { apply Qle_shift_div_l; [exact Hm|]. rewrite Qmult_0_l.
    change 0 with (inject_Z 0). rewrite <- Zle_Qle. lia. }
  assert (H1 : inject_Z z / inject_Z lcg_m < 1).
  { apply Qlt_shift_div_r; [exact Hm|]. rewrite Qmult_1_l.
    rewrite <- Zlt_Qlt. lia. }
  set (rand := inject_Z z / inject_Z lcg_m) in *.
  split; nra.
Qed.

Lemma floor_le (n : Q) : floor n <= n.
Proof. apply Qfloor_le. Qed.

Lemma floor_mono (a b : Q) : a <= b -> floor a <= floor b.
Proof.
  intro H. unfold floor, Math_floor. rewrite <- Zle_Qle.
  now apply Qfloor_resp_le.
Qed.

Section HopsGeometry.

Context `{R : RandomSource}.
Variables platH platWMin platWMax gapMin gapMax riseMin riseMax minY maxY : Q.
Hypothesis range : range_contract R.

Let hops := hops_from platH platWMin platWMax gapMin gapMax riseMin riseMax minY maxY.

(** The width of every hop is the floor of a draw from
    [[platWMin, platWMax + 1)]. *)
Lemma hops_from_widths (n : nat) (x y : Q) (s : rstate) :
  platWMin < platWMax + 1 ->
  Forall (fun p => floor platWMin <= Rect.w p /\ Rect.w p < platWMax + 1 /\
                   Rect.w p = floor (Rect.w p) /\ Rect.h p = platH)
    (fst (hops n x y s)).
Proof.
  intro Hw. revert x y s. induction n as [|n IH]; intros x y s; [constructor|].
  subst hops. cbn [hops_from]. unfold bind, draw.
  pose proof (range platWMin (platWMax + 1) s Hw) as [Hlo Hhi].
  destruct (random platWMin (platWMax + 1) s) as [r s1].
  destruct (random gapMin (gapMax + 1) s1) as [g s2].
  destruct (random riseMin (riseMax + 1) s2) as [d s3].
  specialize (IH (x + floor r + floor g) (constrain (y - floor d) minY maxY) s3).
  destruct (hops_from _ _ _ _ _ _ _ _ _ n _ _ s3) as [rest s4].
  cbn [fst snd ret] in *. constructor; [|exact IH].
  cbn [Rect.w Rect.h]. split; [now apply floor_mono|].
  split; [eapply Qle_lt_trans; [apply floor_le | exact Hhi]|].
  split; [|reflexivity].
  unfold floor, Math_floor. now rewrite Qfloor_Z.
Qed.

(** Between two consecutive hops lies the floor of a draw from
    [[gapMin, gapMax + 1)]. *)
Lemma hops_from_gaps (n : nat) (x y : Q) (s : rstate) (i : nat) (p q : Rect.t) :
  gapMin < gapMax + 1 ->
  nth_error (fst (hops n x y s)) i = Some p ->
  nth_error (fst (hops n x y s)) (S i) = Some q ->
  Rect.x p + Rect.w p + floor gapMin <= Rect.x q /\
  Rect.x q < Rect.x p + Rect.w p + (gapMax + 1).
Proof.
  intro Hg. revert x y s i. induction n as [|n IH]; intros x y s i Hp Hq.
  - destruct i; discriminate.
  - subst hops. cbn [hops_from] in Hp, Hq. unfold bind, draw in Hp, Hq.
    destruct (random platWMin (platWMax + 1) s) as [r s1].
    pose proof (range gapMin (gapMax + 1) s1 Hg) as [Hlo Hhi].
    destruct (random gapMin (gapMax + 1) s1) as [g s2].
    destruct (random riseMin (riseMax + 1) s2) as [d s3].
    specialize (IH (x + floor r + floor g) (constrain (y - floor d) minY maxY) s3).
    destruct n as [|n].
    + cbn in Hq. destruct i; discriminate.
    + destruct (hops_from_first platH platWMin platWMax gapMin gapMax riseMin
                 riseMax minY maxY n (x + floor r + floor g)
                 (constrain (y - floor d) minY maxY) s3) as [rest Hrest].
      destruct (hops_from _ _ _ _ _ _ _ _ _ (S n) _ _ s3) as [l s4].
      cbn [fst snd ret] in *. subst l.
      destruct i as [|i].
      * cbn in Hp, Hq. injection Hp as <-. injection Hq as <-.
        cbn [Rect.x Rect.w fst] in *.
        pose proof (floor_mono _ _ Hlo) as Hf.
        pose proof (floor_le g) as Hg'.
        split; [lra | lra].
      * exact (IH i Hp Hq).
Qed.

End HopsGeometry.

(** Every hop of a random-hops run has a width that is the floor of a draw
    from [[platWMin, platWMax + 1)] (for integer bounds: an integer from
    [platWMin] to [platWMax]) and the height [platH], as long as the random
    source answers within the range it is asked for. *)
Theorem hops_widths_in_range `{R : RandomSource} (gen : Gen.t) (s : rstate)
  (i : nat) (p : Rect.t) :
  range_contract R ->
  Gen.type gen = VStr "randomHops" ->
  (Gen.platWMin gen ?? 70) < (Gen.platWMax gen ?? 120) + 1 ->
  (1 <= i)%nat ->
  nth_error (fst (generatePlatforms gen s)) i = Some p ->
  floor (Gen.platWMin gen ?? 70) <= Rect.w p /\
  Rect.w p < (Gen.platWMax gen ?? 120) + 1 /\
  Rect.w p = floor (Rect.w p) /\
  Rect.h p = Gen.platH gen ?? 12.
Proof.
  intros HR Ht Hw Hi Hp. rewrite (generatePlatforms_hops gen s Ht) in Hp.
  cbn [fst] in Hp. destruct i as [|i]; [lia|]. cbn [nth_error] in Hp.
  pose proof (hops_from_widths (Gen.platH gen ?? 12)
    (Gen.platWMin gen ?? 70) (Gen.platWMax gen ?? 120) (Gen.gapMin gen ?? 55)
    (Gen.gapMax gen ?? 95) (Gen.riseMin gen ?? -15) (Gen.riseMax gen ?? 25)
    110 ((Gen.floorY gen ?? 324) - 60) HR
    (loop_bound (Gen.count gen ?? 10)) (Gen.startX gen ?? 140)
    (Gen.startY gen ?? 280) (after_seed gen s) Hw) as Hall.
  rewrite Forall_forall in Hall. apply Hall.
  eapply nth_error_In. exact Hp.
Qed.

Lemma hops_widths_in_range_witness :
  exists p,
    nth_error (fst (@generatePlatforms LCG hops_seeded 7%Z)) 3 = Some p /\
    70 <= Rect.w p /\ Rect.w p < 121 /\ Rect.h p = 12.
Proof.
  eexists. split; [reflexivity|].
  pose proof (hops_widths_in_range (R := LCG) hops_seeded 7%Z 3 _
                LCG_range_contract eq_refl eq_refl (le_S _ _ (le_S _ _ (le_n 1)))
                eq_refl) as (H1 & H2 & _ & H4).
  split; [exact H1|]. split; [exact H2 | exact H4].
Defined.

(** Consecutive hops never overlap when [gapMin >= 0]: the next hop starts
    at the right edge of the one before plus the floor of a draw from
    [[gapMin, gapMax + 1)], as long as the random source answers within the
    range it is asked for. *)
Theorem hops_gap_in_range `{R : RandomSource} (gen : Gen.t) (s : rstate)
  (i : nat) (p q : Rect.t) :
  range_contract R ->
  Gen.type gen = VStr "randomHops" ->
  (Gen.gapMin gen ?? 55) < (Gen.gapMax gen ?? 95) + 1 ->
  (1 <= i)%nat ->
  nth_error (fst (generatePlatforms gen s)) i = Some p ->
  nth_error (fst (generatePlatforms gen s)) (S i) = Some q ->
  Rect.x p + Rect.w p + floor (Gen.gapMin gen ?? 55) <= Rect.x q /\
  Rect.x q < Rect.x p + Rect.w p + ((Gen.gapMax gen ?? 95) + 1) /\
  (0 <= Gen.gapMin gen ?? 55 -> Rect.x p + Rect.w p <= Rect.x q).
Proof.
  intros HR Ht Hg Hi Hp Hq. rewrite (generatePlatforms_hops gen s Ht) in Hp, Hq.
  cbn [fst] in Hp, Hq. destruct i as [|i]; [lia|].
  change (nth_error (fst (hops_of gen (after_seed gen s))) i = Some p) in Hp.
  change (nth_error (fst (hops_of gen (after_seed gen s))) (S i) = Some q) in Hq.
  destruct (hops_from_gaps (Gen.platH gen ?? 12)
    (Gen.platWMin gen ?? 70) (Gen.platWMax gen ?? 120) (Gen.gapMin gen ?? 55)
    (Gen.gapMax gen ?? 95) (Gen.riseMin gen ?? -15) (Gen.riseMax gen ?? 25)
    110 ((Gen.floorY gen ?? 324) - 60) HR
    (loop_bound (Gen.count gen ?? 10)) (Gen.startX gen ?? 140)
    (Gen.startY gen ?? 280) (after_seed gen s) i p q Hg Hp Hq) as [Hlo Hhi].
  split; [exact Hlo|]. split; [exact Hhi|].
  intro H0. pose proof (floor_mono _ _ H0) as Hf.
  change (floor 0) with 0 in Hf. lra.
Qed.

Lemma hops_gap_in_range_witness :
  exists p q,
    nth_error (fst (@generatePlatforms LCG hops_seeded 7%Z)) 1 = Some p /\
    nth_error (fst (@generatePlatforms LCG hops_seeded 7%Z)) 2 = Some q /\
    Rect.x p + Rect.w p + 55 <= Rect.x q /\
    Rect.x q < Rect.x p + Rect.w p + 96.
Proof.
  eexists. eexists. split; [reflexivity|]. split; [reflexivity|].
  pose proof (hops_gap_in_range (R := LCG) hops_seeded 7%Z 1 _ _
                LCG_range_contract eq_refl eq_refl (le_n 1) eq_refl eq_refl)
    as (H1 & H2 & _).
  split; [exact H1 | exact H2].
Defined.

(** The draws a run of hops makes, on a source that counts them. *)
Lemma hops_from_draw_count `{R : RandomSource}
  (platH platWMin platWMax gapMin gapMax riseMin riseMax minY maxY : Q)
  (n : nat) (x y : Q) (s : rstate) (c : nat) :
  snd (snd (@hops_from (Counting R) platH platWMin platWMax gapMin gapMax
              riseMin riseMax minY maxY n x y (s, c))) = (c + 3 * n)%nat.
Proof.
  revert x y s c. induction n as [|n IH]; intros x y s c.
  - cbn. lia.
  - cbn [hops_from]. unfold bind, draw. cbn [random Counting fst snd].
    destruct (random platWMin (platWMax + 1) s) as [r s1]. cbn [fst snd].
    destruct (random gapMin (gapMax + 1) s1) as [g s2]. cbn [fst snd].
    destruct (random riseMin (riseMax + 1) s2) as [d s3].
    specialize (IH (x + floor r + floor g) (constrain (y - floor d) minY maxY)
                   s3 (S (S (S c)))).
    destruct (@hops_from (Counting R) _ _ _ _ _ _ _ _ _ n _ _ (s3, S (S (S c))))
      as [rest s4].
    cbn [fst snd ret] in *. rewrite IH. lia.
Qed.

(** A random-hops run emits the floor and [ceil(count)] hops (none when
    [count <= 0]) and makes exactly three draws for each hop: the gap and
    the rise are drawn after the last hop too. *)
Theorem hops_count_and_draws `{R : RandomSource} (gen : Gen.t) (s : rstate)
  (c : nat) :
  Gen.type gen = VStr "randomHops" ->
  List.length (fst (generatePlatforms gen s)) =
    S (Z.to_nat (Qceiling (Gen.count gen ?? 10))) /\
  snd (snd (@generatePlatforms (Counting R) gen (s, c))) =
    (c + 3 * Z.to_nat (Qceiling (Gen.count gen ?? 10)))%nat /\
  (Gen.count gen ?? 10 <= 0 ->
   fst (generatePlatforms gen s) =
     [ {| Rect.x := 0; Rect.y := Gen.floorY gen ?? 324;
          Rect.w := Gen.worldW gen ?? 900; Rect.h := Gen.floorH gen ?? 36 |} ]).
Proof.
  intro Ht. rewrite (generatePlatforms_hops gen s Ht).
  rewrite (generatePlatforms_hops (R := Counting R) gen (s, c) Ht).
  cbn [fst snd]. split; [|split].
  - cbn [List.length]. unfold hops_of. now rewrite hops_from_length.
  - unfold hops_of.
    replace (@after_seed (Counting R) gen (s, c))
      with (after_seed gen s, c)
      by (unfold after_seed; destruct (Gen.seed gen); reflexivity).
    apply hops_from_draw_count.
  - intro Hc. unfold hops_of. now rewrite (loop_bound_nonpositive _ Hc).
Qed.

Lemma hops_count_and_draws_witness :
  List.length (fst (@generatePlatforms LCG hops_seeded 7%Z)) = 5%nat /\
  snd (snd (@generatePlatforms (Counting LCG) hops_seeded (7%Z, 0%nat))) = 12%nat.
Proof.
  pose proof (hops_count_and_draws (R := LCG) hops_seeded 7%Z 0 eq_refl)
    as (H1 & H2 & _).
  split; [exact H1 | exact H2].
Defined.

Lemma hops_later_platforms_in_band_witness :
  exists p,
    nth_error (fst (@generatePlatforms LCG hops_seeded 7%Z)) 4 = Some p /\
    in_band 324 p.
Proof.
  eexists. split; [reflexivity|].
  apply (hops_later_platforms_in_band (R := LCG) hops_seeded 7%Z 4);
    [reflexivity | discriminate | repeat constructor | reflexivity].
Defined.

(** * Further properties of the constructor *)

(** ** The name and the theme *)

(** The name of a built level is always truthy: a falsy [name] (missing,
    [null], [""], [0], [false]) is replaced by ["Level"], any other is
    kept. *)
Theorem built_name_truthy `{R : RandomSource} (levelJson : LevelJson.t) (s : rstate) :
  truthy (Level.name (fst (constructor levelJson s))) = true /\
  (truthy (LevelJson.name levelJson) = false ->
   Level.name (fst (constructor levelJson s)) = VStr "Level") /\
  (truthy (LevelJson.name levelJson) = true ->
   Level.name (fst (constructor levelJson s)) = LevelJson.name levelJson).
Proof.
  destruct (constructor_fields levelJson s) as (Hn & _). cbv zeta in Hn.
  rewrite Hn. unfold or_else.
  destruct (truthy (LevelJson.name levelJson)) eqn:E.
  - repeat split; [exact E | discriminate].
  - repeat split; discriminate.
Qed.

(** A level named [""]. *)
Definition level_unnamed : LevelJson.t :=
  {| LevelJson.name := VStr "";
     LevelJson.gravity := VUndefined;
     LevelJson.jumpV := VUndefined;
     LevelJson.theme := Prim (VStr "dark");
     LevelJson.start := Prim VUndefined;
     LevelJson.platforms := Prim VUndefined;
     LevelJson.generated := Prim VUndefined |}.

Lemma built_name_truthy_witness :
  truthy (LevelJson.name level_unnamed) = false /\
  Level.name (fst (@constructor LCG level_unnamed 7%Z)) = VStr "Level".
Proof.
  split; [reflexivity|].
  exact (proj1 (proj2 (built_name_truthy (R := LCG) level_unnamed 7%Z)) eq_refl).
Defined.

(** The default theme of the constructor. *)
Definition default_theme : Theme.t :=
  {| Theme.bg := VStr "#F0F0F0"; Theme.platform := VStr "#C8C8C8";
     Theme.blob := VStr "#1478FF" |}.

(** What a key of the JSON theme makes of a default colour. *)
Definition overridden (key : option value) (default result : value) : Prop :=
  match key with
  | Some v => result = v
  | None => result = default
  end.

(** The theme of a built level is the default triple whenever
    [levelJson.theme] is no object (missing, [null] or any primitive, truthy
    or not); when it is an object, each of its keys replaces the default of
    that key alone and a missing key keeps the default. *)
Theorem built_theme_overrides_per_key `{R : RandomSource}
  (levelJson : LevelJson.t) (s : rstate) :
  (forall v, LevelJson.theme levelJson = Prim v ->
     Level.theme (fst (constructor levelJson s)) = default_theme) /\
  (forall o, LevelJson.theme levelJson = Obj o ->
     overridden (ThemeJson.bg o) (VStr "#F0F0F0")
       (Theme.bg (Level.theme (fst (constructor levelJson s)))) /\
     overridden (ThemeJson.platform o) (VStr "#C8C8C8")
       (Theme.platform (Level.theme (fst (constructor levelJson s)))) /\
     overridden (ThemeJson.blob o) (VStr "#1478FF")
       (Theme.blob (Level.theme (fst (constructor levelJson s))))).
Proof.
  destruct (constructor_fields levelJson s) as (_ & Ht & _). cbv zeta in Ht.
  rewrite Ht. split.
  - intros v Hv. rewrite Hv. unfold theme_or_empty. cbn [truthy_field].
    destruct (truthy v); reflexivity.
  - intros o Ho. rewrite Ho. unfold theme_or_empty. cbn [truthy_field Object_assign].
    cbn [Theme.bg Theme.platform Theme.blob]. unfold overridden, assign_key.
    destruct (ThemeJson.bg o), (ThemeJson.platform o), (ThemeJson.blob o);
      repeat split.
Qed.

Lemma built_theme_overrides_per_key_witness :
  Level.theme (fst (@constructor LCG level_unnamed 7%Z)) = default_theme /\
  Theme.blob (Level.theme (fst (@constructor LCG level_blob_only 7%Z))) = VStr "#FF0000" /\
  Theme.bg (Level.theme (fst (@constructor LCG level_blob_only 7%Z))) = VStr "#F0F0F0".
Proof.
  split.
  - exact (proj1 (built_theme_overrides_per_key (R := LCG) level_unnamed 7%Z)
             (VStr "dark") eq_refl).
  - destruct (proj2 (built_theme_overrides_per_key (R := LCG) level_blob_only 7%Z)
                _ eq_refl) as (Hbg & _ & Hblob).
    split; [exact Hblob | exact Hbg].
Defined.

(** ** The constructor and the random source *)

Lemma strict_eq_string_true (v : value) (lit : string) :
  strict_eq_string v lit = true -> v = VStr lit.
Proof.
  destruct v; try discriminate. cbn. intro H.
  apply String.eqb_eq in H. now subst.
Qed.

(** Outside the random-hops branch the generator does nothing to the random
    source but the re-seeding. *)
Lemma generatePlatforms_state_not_hops `{R : RandomSource} (gen : Gen.t) (s : rstate) :
  Gen.type gen <> VStr "randomHops" ->
  snd (generatePlatforms gen s) = after_seed gen s.
Proof.
  intro Hn. destruct (strict_eq_string (Gen.type gen) "stairs") eqn:E.
  - apply strict_eq_string_true in E.
    now rewrite (generatePlatforms_stairs gen s E).
  - unfold generatePlatforms, after_seed, bind. rewrite E.
    rewrite (strict_eq_string_false _ _ Hn).
    destruct (Gen.seed gen); reflexivity.
Qed.

(** Building a level whose config carries a numeric seed re-seeds the shared
    random source whatever the type of the config, a staircase or an unknown
    type included: the source is left as [randomSeed(seed)] leaves it.
    Without a numeric seed such a config leaves the source as it was. *)
Theorem constructor_reseeds_for_any_type `{R : RandomSource}
  (levelJson : LevelJson.t) (gen : Gen.t) (s : rstate) :
  LevelJson.generated levelJson = Obj gen ->
  Gen.type gen <> VStr "randomHops" ->
  (forall seed, Gen.seed gen = VNum seed ->
     snd (constructor levelJson s) = randomSeed seed s) /\
  (typeof_number (Gen.seed gen) = false -> snd (constructor levelJson s) = s).
Proof.
  intros Hg Hn. rewrite constructor_state, Hg. cbn [truthy_field Gen.of_field].
  rewrite (generatePlatforms_state_not_hops gen s Hn). unfold after_seed. split.
  - intros seed Hs. now rewrite Hs.
  - intro Hs. destruct (Gen.seed gen); try reflexivity. discriminate.
Qed.

(** A level whose config has an unknown type and a seed. *)
Definition level_teleport_seeded : LevelJson.t :=
  {| LevelJson.name := VStr "Warp";
     LevelJson.gravity := VUndefined;
     LevelJson.jumpV := VUndefined;
     LevelJson.theme := Prim VUndefined;
     LevelJson.start := Prim VUndefined;
     LevelJson.platforms := Prim VUndefined;
     LevelJson.generated :=
       Obj {| Gen.type := VStr "teleport"; Gen.seed := VNum 99;
              Gen.worldW := None; Gen.floorY := None; Gen.floorH := None;
              Gen.startX := None; Gen.startY := None; Gen.stepW := None;
              Gen.stepH := None; Gen.rise := None; Gen.count := None;
              Gen.platH := None; Gen.platWMin := None; Gen.platWMax := None;
              Gen.gapMin := None; Gen.gapMax := None; Gen.riseMin := None;
              Gen.riseMax := None |} |}.

Lemma constructor_reseeds_for_any_type_witness :
  snd (@constructor LCG level_teleport_seeded 7%Z) = 99%Z.
Proof.
  refine (proj1 (constructor_reseeds_for_any_type (R := LCG) level_teleport_seeded
                   _ 7%Z eq_refl _) 99 eq_refl).
  discriminate.
Defined.

(** With a numeric seed the generator returns the same rectangles from any
    two states of a source that keeps its seed contract, for every type. *)
Lemma generatePlatforms_seeded_any_type `{R : RandomSource}
  (gen : Gen.t) (seed : Q) (s1 s2 : rstate) :
  seed_contract R ->
  Gen.seed gen = VNum seed ->
  fst (generatePlatforms gen s1) = fst (generatePlatforms gen s2).
Proof.
  intros HR Hs. destruct (strict_eq_string (Gen.type gen) "stairs") eqn:E1.
  - apply strict_eq_string_true in E1.
    now rewrite !(generatePlatforms_stairs gen _ E1).
  - destruct (strict_eq_string (Gen.type gen) "randomHops") eqn:E2.
    + apply strict_eq_string_true in E2.
      rewrite !(generatePlatforms_hops gen _ E2). cbn [fst]. f_equal.
      unfold after_seed. rewrite Hs. apply hops_from_same_draws, HR.
    + unfold generatePlatforms, bind. rewrite E1, E2, Hs. reflexivity.
Qed.

(** Two builds of a level JSON whose config carries a numeric seed give the
    same level, field by field and platform by platform, from whatever
    states of the random source, when the source keeps its contract that
    the same seed yields the same draws: the layout is stable per load. *)
Theorem constructor_seeded_deterministic `{R : RandomSource}
  (levelJson : LevelJson.t) (gen : Gen.t) (seed : Q) (s1 s2 : rstate) :
  seed_contract R ->
  LevelJson.generated levelJson = Obj gen ->
  Gen.seed gen = VNum seed ->
  fst (constructor levelJson s1) = fst (constructor levelJson s2).
Proof.
  intros HR Hg Hs.
  pose proof (generatePlatforms_seeded_any_type gen seed s1 s2 HR Hs) as E.
  unfold constructor, bind. rewrite Hg. cbn [truthy_field Gen.of_field].
  destruct (generatePlatforms gen s1) as [g1 t1].
  destruct (generatePlatforms gen s2) as [g2 t2].
  cbn [fst] in E. subst g2. reflexivity.
Qed.

(** A level with a seeded random-hops config. *)
Definition level_hops_seeded : LevelJson.t :=
  {| LevelJson.name := VStr "Hops";
     LevelJson.gravity := VNum 0.65;
     LevelJson.jumpV := VNum (-11.0);
     LevelJson.theme := Prim VUndefined;
     LevelJson.start := Prim VUndefined;
     LevelJson.platforms :=
       Obj [ {| Rect.x := 0; Rect.y := 300; Rect.w := 10; Rect.h := 4 |} ];
     LevelJson.generated := Obj hops_seeded |}.

Lemma constructor_seeded_deterministic_witness :
  fst (@constructor LCG level_hops_seeded 7%Z) =
  fst (@constructor LCG level_hops_seeded 2024%Z).
Proof.
  apply (constructor_seeded_deterministic (R := LCG) level_hops_seeded
           hops_seeded 42 7%Z 2024%Z);
    [intros seed s1 s2 reqs; reflexivity | reflexivity | reflexivity].
Defined.

(** * Further properties of the geometry helpers *)

Lemma inferWidth_is_max (this : Level.t) (defaultW : option Q) :
  Level.platforms this <> [] ->
  is_max (inferWidth this defaultW) (map right_edge (Level.platforms this)).
Proof.
  intro Hne. unfold inferWidth.
  destruct (Level.platforms this) as [|p ps]; [congruence|].
  cbn [List.length Nat.eqb map max]. apply fold_Math_max_is_max.
Qed.

Lemma inferHeight_is_max (this : Level.t) (defaultH : option Q) :
  Level.platforms this <> [] ->
  is_max (inferHeight this defaultH) (map bottom_edge (Level.platforms this)).
Proof.
  intro Hne. unfold inferHeight.
  destruct (Level.platforms this) as [|p ps]; [congruence|].
  cbn [List.length Nat.eqb map max]. apply fold_Math_max_is_max.
Qed.

(** Platforms added at the end of a level that has some never shrink the
    inferred size. (On a level without platforms the helpers answer their
    argument, which the first platforms may well undercut.) *)
Theorem infer_size_grows_with_platforms (this that : Level.t)
  (extra : list Platform.t) (defaultW defaultH : option Q) :
  Level.platforms this <> [] ->
  Level.platforms that = Level.platforms this ++ extra ->
  inferWidth this defaultW <= inferWidth that defaultW /\
  inferHeight this defaultH <= inferHeight that defaultH.
Proof.
  intros Hne Hthat.
  assert (Hne' : Level.platforms that <> []).
  { rewrite Hthat. destruct (Level.platforms this); [congruence | discriminate]. }
  destruct (inferWidth_is_max this defaultW Hne) as [Hw _].
  destruct (inferHeight_is_max this defaultH Hne) as [Hh _].
  destruct (inferWidth_is_max that defaultW Hne') as [_ Hwub].
  destruct (inferHeight_is_max that defaultH Hne') as [_ Hhub].
  rewrite Hthat, map_app in Hwub, Hhub.
  split; [apply Hwub | apply Hhub]; apply in_or_app; now left.
Qed.

(** The level built from the authored platforms of [level_two_plus_three]
    alone. *)
Definition level_two_authored : LevelJson.t :=
  {| LevelJson.name := VStr "Intro Steps";
     LevelJson.gravity := VUndefined;
     LevelJson.jumpV := VUndefined;
     LevelJson.theme := Prim VUndefined;
     LevelJson.start := Prim VUndefined;
     LevelJson.platforms :=
       Obj [ {| Rect.x := 0; Rect.y := 300; Rect.w := 10; Rect.h := 4 |};
             {| Rect.x := 20; Rect.y := 200; Rect.w := 5; Rect.h := 4 |} ];
     LevelJson.generated := Prim VNull |}.

Lemma infer_size_grows_with_platforms_witness :
  inferWidth (fst (@constructor LCG level_two_authored 7%Z)) None <=
  inferWidth (fst (@constructor LCG level_two_plus_three 7%Z)) None /\
  inferHeight (fst (@constructor LCG level_two_authored 7%Z)) None <=
  inferHeight (fst (@constructor LCG level_two_plus_three 7%Z)) None.
Proof.
  apply (infer_size_grows_with_platforms
           (fst (@constructor LCG level_two_authored 7%Z))
           (fst (@constructor LCG level_two_plus_three 7%Z))
           (map Platform.new (fst (@generatePlatforms LCG stairs_seeded 7%Z))));
    [discriminate | reflexivity].
Defined.

(** The floor both generators emit first, as a platform of the level. *)
Lemma generated_floor_in_platforms `{R : RandomSource}
  (levelJson : LevelJson.t) (gen : Gen.t) (s : rstate) (floor_rect : Rect.t)
  (rest : list Rect.t) :
  LevelJson.generated levelJson = Obj gen ->
  fst (generatePlatforms gen s) = floor_rect :: rest ->
  In (Platform.new floor_rect) (Level.platforms (fst (constructor levelJson s))).
Proof.
  intros Hg Hf. rewrite constructor_platforms, Hg.
  cbn [truthy_field Gen.of_field]. rewrite Hf.
  apply in_map, in_or_app. right. now left.
Qed.

Lemma infer_size_above_floor (this : Level.t) (worldW floorY floorH : Q)
  (dW dH : option Q) :
  In (Platform.new {| Rect.x := 0; Rect.y := floorY; Rect.w := worldW; Rect.h := floorH |})
     (Level.platforms this) ->
  worldW <= inferWidth this dW /\ floorY + floorH <= inferHeight this dH.
Proof.
  intro Hin.
  assert (Hne : Level.platforms this <> []).
  { destruct (Level.platforms this); [destruct Hin | discriminate]. }
  destruct (inferWidth_is_max this dW Hne) as [_ Hw].
  destruct (inferHeight_is_max this dH Hne) as [_ Hh].
  split.
  - apply Qle_trans with (0 + worldW); [rewrite Qplus_0_l; apply Qle_refl|].
    apply Hw. apply (in_map right_edge) in Hin. exact Hin.
  - apply Hh. apply (in_map bottom_edge) in Hin. exact Hin.
Qed.

(** A level built with a stairs or random-hops config is at least as wide as
    the floor of the config ([worldW], 640 or 900 by default) and at least
    as high as its lower edge ([floorY + floorH]): the helpers see the
    generated floor like any authored platform. *)
Theorem inferred_size_covers_floor `{R : RandomSource}
  (levelJson : LevelJson.t) (gen : Gen.t) (s : rstate) (dW dH : option Q) :
  LevelJson.generated levelJson = Obj gen ->
  (Gen.type gen = VStr "stairs" ->
   Gen.worldW gen ?? 640 <= inferWidth (fst (constructor levelJson s)) dW /\
   (Gen.floorY gen ?? 324) + (Gen.floorH gen ?? 36) <=
     inferHeight (fst (constructor levelJson s)) dH) /\
  (Gen.type gen = VStr "randomHops" ->
   Gen.worldW gen ?? 900 <= inferWidth (fst (constructor levelJson s)) dW /\
   (Gen.floorY gen ?? 324) + (Gen.floorH gen ?? 36) <=
     inferHeight (fst (constructor levelJson s)) dH).
Proof.
  intro Hg. split; intro Ht; apply infer_size_above_floor.
  - eapply (generated_floor_in_platforms levelJson gen s _ _ Hg).
    rewrite (generatePlatforms_stairs gen s Ht). reflexivity.
  - eapply (generated_floor_in_platforms levelJson gen s _ _ Hg).
    rewrite (generatePlatforms_hops gen s Ht). reflexivity.
Qed.

Lemma inferred_size_covers_floor_witness :
  900 <= inferWidth (fst (@constructor LCG level_hops_seeded 7%Z)) None /\
  324 + 36 <= inferHeight (fst (@constructor LCG level_hops_seeded 7%Z)) None.
Proof.
  exact (proj2 (inferred_size_covers_floor (R := LCG) level_hops_seeded
                  hops_seeded 7%Z None None eq_refl) eq_refl).
Defined.

(** * The render pass *)

Module Render.

Section Backend.

(** The colours of the rendering backend and p5's [color(value)]. *)
Variable Color : Type.
Variable color : value -> Color.

(** The calls [drawWorld] makes to its collaborators: p5's
    [background(c)] and the [draw(fill)] of a platform. *)
Inductive call : Type :=
| Background (c : Color)
| PlatformDraw (p : Platform.t) (fill : Color).

(** The canvas: the calls made so far, the oldest first. *)
Definition canvas : Type := list call.

Definition background (c : Color) (cv : canvas) : canvas := cv ++ [Background c].

(** Modelled from the spec: the method [draw] of the class [Platform],
    which is declared in another file of the sketch; the spec describes it
    as "a draw operation taking a fill color". The call is recorded. *)
Definition Platform_draw (p : Platform.t) (fill : Color) (cv : canvas) : canvas :=
  cv ++ [PlatformDraw p fill].

(** [drawWorld()], lines 172-177. *)
Definition drawWorld (this : Level.t) (cv : canvas) : canvas :=
  let cv := background (color (Theme.bg (Level.theme this))) cv in
  fold_left
    (fun cv p => Platform_draw p (color (Theme.platform (Level.theme this))) cv)
    (Level.platforms this) cv.

Lemma draw_loop_appends (fill : Color) (ps : list Platform.t) (cv : canvas) :
  fold_left (fun cv p => Platform_draw p fill cv) ps cv =
  cv ++ map (fun p => PlatformDraw p fill) ps.
Proof.
  revert cv. induction ps as [|p ps IH]; intro cv; cbn [fold_left map].
  - now rewrite app_nil_r.
  - rewrite IH. unfold Platform_draw. now rewrite <- app_assoc.
Qed.

(** [drawWorld] keeps the calls already on the canvas and adds one
    [background] call with the theme's [bg], then one [draw] call for each
    platform, in the order of the platforms sequence and each with the
    theme's [platform] colour: one call more than there are platforms. *)
Theorem drawWorld_background_then_platforms (this : Level.t) (cv : canvas) :
  drawWorld this cv =
    cv ++ Background (color (Theme.bg (Level.theme this)))
       :: map (fun p => PlatformDraw p (color (Theme.platform (Level.theme this))))
              (Level.platforms this) /\
  List.length (drawWorld this cv) =
    (List.length cv + S (List.length (Level.platforms this)))%nat.
Proof.
  assert (E : drawWorld this cv =
    cv ++ Background (color (Theme.bg (Level.theme this)))
       :: map (fun p => PlatformDraw p (color (Theme.platform (Level.theme this))))
              (Level.platforms this)).
  { unfold drawWorld, background. rewrite draw_loop_appends.
    now rewrite <- app_assoc. }
  split; [exact E|].
  rewrite E, length_app. cbn [List.length]. now rewrite length_map.
Qed.

(** On a level built from a JSON with an authored array and a generator
    config, the render pass draws the authored platforms first and the
    generated ones after them, so that generated platforms are painted over
    authored ones where they overlap. *)
Theorem drawWorld_authored_before_generated `{R : RandomSource}
  (levelJson : LevelJson.t) (arr : list Rect.t) (gen : Gen.t) (s : rstate) :
  LevelJson.platforms levelJson = Obj arr ->
  LevelJson.generated levelJson = Obj gen ->
  let L := fst (constructor levelJson s) in
  let fill := color (Theme.platform (Level.theme L)) in
  drawWorld L [] =
    Background (color (Theme.bg (Level.theme L)))
    :: map (fun r => PlatformDraw (Platform.new r) fill) arr
    ++ map (fun r => PlatformDraw (Platform.new r) fill)
         (fst (generatePlatforms gen s)).
Proof.
  intros Hp Hg L fill. subst L fill.
  unfold drawWorld, background. rewrite draw_loop_appends.
  rewrite constructor_platforms. unfold authored. rewrite Hp, Hg.
  cbn [truthy_field Gen.of_field app]. now rewrite map_map, map_app.
Qed.

End Backend.

End Render.

(** The render pass on the level of two authored platforms and a staircase
    of two steps, with colours kept as the values they are made from. *)
Lemma drawWorld_authored_before_generated_witness :
  Render.drawWorld value (fun v => v)
    (fst (@constructor LCG level_two_plus_three 7%Z)) [] =
  Render.Background value (VStr "#F0F0F0")
  :: map (fun r => Render.PlatformDraw value (Platform.new r) (VStr "#C8C8C8"))
       ([ {| Rect.x := 0; Rect.y := 300; Rect.w := 10; Rect.h := 4 |};
          {| Rect.x := 20; Rect.y := 200; Rect.w := 5; Rect.h := 4 |} ]
        ++ [ {| Rect.x := 0; Rect.y := 324; Rect.w := 640; Rect.h := 36 |};
             {| Rect.x := 120; Rect.y := 290; Rect.w := 80; Rect.h := 12 |};
             {| Rect.x := 200; Rect.y := 268; Rect.w := 80; Rect.h := 12 |} ]).
Proof.
  rewrite map_app.
  exact (Render.drawWorld_authored_before_generated value (fun v => v)
           (R := LCG) level_two_plus_three _ stairs_seeded 7%Z eq_refl eq_refl).
Defined.
